(** * cudf/core/_compat.py: the pandas version-compatibility probe

    The module under verification is five assignments:
<<
    from packaging import version
    import pandas as pd

    PANDAS_CURRENT_SUPPORTED_VERSION = version.parse("2.2.3")
    PANDAS_VERSION = version.parse(pd.__version__)

    PANDAS_GE_210 = PANDAS_VERSION >= version.parse("2.1.0")
    PANDAS_GE_220 = PANDAS_VERSION >= version.parse("2.2.0")
    PANDAS_LT_300 = PANDAS_VERSION < version.parse("3.0.0")
>>
    Everything it computes is delegated to [packaging.version], an external
    library: [PyCompare], [Re] and [version] below embed the parts of
    Python and of that library the five lines run ([packaging] 24.2,
    [version.py] and [_structures.py]); [Compat] embeds the module itself
    as a program over its global namespace. *)

From Stdlib Require Import ZArith NArith List Bool Ascii String Lia.
From stdpp Require Import base option list strings gmap.

Local Open Scope Z_scope.

(** ** Python values used by the probe *)

(** A Python [str] is a sequence of Unicode code points. *)
Abbreviation str := (list N).

(** A [str] literal, written with the characters of a Rocq string (one code
    point per byte, which is exact for ASCII literals). *)
Fixpoint u (s : string) : list N :=
  match s with
  | EmptyString => []
  | String c s' => N_of_ascii c :: u s'
  end.

(** ** Rich comparison

    The three rich-comparison operators the probe reaches: [==] (used by
    the tuple comparison to find the first differing position), [<] and
    [>=], each after Python's dispatch on the operand types. *)
Module PyCompare.

Class PyCmp (A : Type) := {
  py_eq : A -> A -> bool;
  py_lt : A -> A -> bool;
  py_ge : A -> A -> bool
}.

(** [int]. *)
#[export] Instance int_cmp : PyCmp Z :=
  {| py_eq := Z.eqb; py_lt := Z.ltb; py_ge := Z.geb |}.

(** A single code point, as [str] comparison sees it. *)
#[export] Instance codepoint_cmp : PyCmp N :=
  {| py_eq := N.eqb; py_lt := N.ltb; py_ge := fun a b => N.leb b a |}.

(** Sequences ([tuple], and [str] as the sequence of its code points):
    the first position where the operands differ under [==] decides; when
    there is none, the lengths decide. *)
Section Sequences.
Context {A : Type} `{PyCmp A}.

Fixpoint seq_eq (x y : list A) : bool :=
  match x, y with
  | [], [] => true
  | a :: x', b :: y' => py_eq a b && seq_eq x' y'
  | _, _ => false
  end.

Fixpoint seq_lt (x y : list A) : bool :=
  match x, y with
  | [], [] => false
  | [], _ :: _ => true
  | _ :: _, [] => false
  | a :: x', b :: y' => if py_eq a b then seq_lt x' y' else py_lt a b
  end.

Fixpoint seq_ge (x y : list A) : bool :=
  match x, y with
  | [], [] => true
  | [], _ :: _ => false
  | _ :: _, [] => true
  | a :: x', b :: y' => if py_eq a b then seq_ge x' y' else py_ge a b
  end.
End Sequences.

#[export] Instance seq_cmp {A} `{PyCmp A} : PyCmp (list A) :=
  {| py_eq := seq_eq; py_lt := seq_lt; py_ge := seq_ge |}.

(** Tuples of fixed length with components of different types: a pair, and
    longer tuples as pairs nested to the left, which compares the
    components in the same left-to-right order. *)
Section Pairs.
Context {A B : Type} `{PyCmp A} `{PyCmp B}.

Definition pair_eq (x y : A * B) : bool :=
  py_eq (fst x) (fst y) && py_eq (snd x) (snd y).

Definition pair_lt (x y : A * B) : bool :=
  if py_eq (fst x) (fst y)
  then (if py_eq (snd x) (snd y) then false else py_lt (snd x) (snd y))
  else py_lt (fst x) (fst y).

Definition pair_ge (x y : A * B) : bool :=
  if py_eq (fst x) (fst y)
  then (if py_eq (snd x) (snd y) then true else py_ge (snd x) (snd y))
  else py_ge (fst x) (fst y).
End Pairs.

#[export] Instance pair_cmp {A B} `{PyCmp A} `{PyCmp B} : PyCmp (A * B) :=
  {| py_eq := pair_eq; py_lt := pair_lt; py_ge := pair_ge |}.

(** What the proofs need of an operand type: [==] decides equality of the
    modelled values, and on distinct values [<] is a strict total order
    whose complement is [>=].  Nothing is asked of [<] and [>=] on equal
    values: the sequence comparison never consults them there, and the
    sentinels of [packaging._structures] answer constants. *)
Class PyCmpLaws (A : Type) `{PyCmp A} := {
  py_eq_iff : forall a b : A, py_eq a b = true <-> a = b;
  py_ge_neq : forall a b : A, a <> b -> py_ge a b = negb (py_lt a b);
  py_lt_total : forall a b : A, a <> b -> py_lt b a = negb (py_lt a b);
  py_lt_trans : forall a b c : A, a <> b -> b <> c -> a <> c ->
    py_lt a b = true -> py_lt b c = true -> py_lt a c = true
}.

(** Operand types whose [>=] and [<] are also right on equal values. *)
Class PyCmpRefl (A : Type) `{PyCmp A} := {
  py_ge_refl : forall a : A, py_ge a a = true;
  py_lt_irrefl : forall a : A, py_lt a a = false
}.

End PyCompare.
Export PyCompare.

(** ** Regular expressions

    The backtracking matcher of Python's [re], for the constructs the
    version pattern uses: alternatives are tried left to right, [?] and [*]
    are greedy, a named group records the text it matched last, and what a
    group recorded on an abandoned path is forgotten with the path (the
    continuation [k] is the rest of the pattern; [None] is a dead end).
    An iteration of [*] that consumes nothing ends the repetition, so
    there are at most as many iterations as characters ahead. *)
Module Re.

Inductive regex :=
| Eps
| Chr (p : N -> bool)                (* one character of a class *)
| Seq (r1 r2 : regex)
| Alt (r1 r2 : regex)
| Opt (r : regex)                    (* r? *)
| Star (r : regex)                   (* r* *)
| Group (name : string) (r : regex)  (* (?P<name>r) *)
| Bol                                (* ^ *)
| Eol.                               (* $ *)

Definition Plus (r : regex) : regex := Seq r (Star r).

Definition seq (rs : list regex) : regex := foldr Seq Eps rs.

Definition alt (r : regex) (rs : list regex) : regex :=
  foldl (fun acc r' => Alt acc r') r rs.

(** Position in the subject, the text still ahead, and the groups set. *)
Record mstate := {
  pos : nat;
  rest : list N;
  groups : gmap string (list N)
}.

Fixpoint rmatch {R : Type} (r : regex) (st : mstate)
    (k : mstate -> option R) : option R :=
  match r with
  | Eps => k st
  | Chr p =>
      match rest st with
      | c :: cs =>
          if p c then k {| pos := S (pos st); rest := cs; groups := groups st |}
          else None
      | [] => None
      end
  | Seq r1 r2 => rmatch r1 st (fun st' => rmatch r2 st' k)
  | Alt r1 r2 =>
      match rmatch r1 st k with
      | Some m => Some m
      | None => rmatch r2 st k
      end
  | Opt r1 =>
      match rmatch r1 st k with
      | Some m => Some m
      | None => k st
      end
  | Star r1 =>
      (fix loop (fuel : nat) (st : mstate) : option R :=
         match fuel with
         | O => k st
         | S fuel' =>
             let again st' :=
               if (pos st <? pos st')%nat then loop fuel' st' else None in
             match rmatch r1 st again with
             | Some m => Some m
             | None => k st
             end
         end) (length (rest st)) st
  | Group name r1 =>
      rmatch r1 st (fun st' =>
        let text := take (pos st' - pos st) (rest st) in
        k {| pos := pos st'; rest := rest st';
             groups := <[name := text]> (groups st') |})
  | Bol => if (pos st =? 0)%nat then k st else None
  | Eol =>
      match rest st with
      | [] => k st
      | [c] => if (c =? 10)%N then k st else None
      | _ => None
      end
  end.

(** A match object, and [Match.group]: [None] for a group that took no
    part in the match. *)
Record Match := { groupdict : gmap string (list N) }.

Definition group (m : Match) (name : string) : option (list N) :=
  groupdict m !! name.

(** [Pattern.search]: the leftmost position from which the pattern matches. *)
Fixpoint search_from (r : regex) (p : nat) (s : list N) : option Match :=
  match rmatch r {| pos := p; rest := s; groups := ∅ |}
               (fun st => Some {| groupdict := groups st |}) with
  | Some m => Some m
  | None =>
      match s with
      | [] => None
      | _ :: s' => search_from r (S p) s'
      end
  end.

Definition search (r : regex) (s : list N) : option Match := search_from r 0 s.

(** [re.split] by a one-character class; also [str.split] by a one-character
    separator. *)
Fixpoint split (sep : N -> bool) (s : list N) : list (list N) :=
  match s with
  | [] => [[]]
  | c :: s' =>
      if sep c then [] :: split sep s'
      else match split sep s' with
           | part :: parts => (c :: part) :: parts
           | [] => [[c]]
           end
  end.

(** *** Character classes under [re.IGNORECASE]

    For a [str] pattern the flag is Unicode-aware.  The matcher lowers the
    subject character with the simple lower-case mapping and looks it up in
    the class, which the compiler has closed under the case "fixes" of its
    members.  [sre_lower] is that mapping where its result can lie in the
    classes of the version pattern: on [A-Z], on U+0130 (whose simple lower
    case is [i]) and on U+212A (the Kelvin sign, lower case [k]); [fixes]
    gives the two members with an extra equivalent, [i] (U+0131) and
    [s] (U+017F). *)
Definition sre_lower (ch : N) : N :=
  if ((65 <=? ch) && (ch <=? 90))%N then (ch + 32)%N
  else if (ch =? 0x130)%N then 0x69%N
  else if (ch =? 0x212A)%N then 0x6B%N
  else ch.

Definition fixes (c : N) : list N :=
  if (c =? 0x69)%N then [0x131%N]
  else if (c =? 0x73)%N then [0x17F%N]
  else [].

(** A literal character [c] of the pattern. *)
Definition literal (c : N) : N -> bool := fun ch =>
  let l := sre_lower ch in
  (l =? c)%N || existsb (N.eqb l) (fixes c).

(** A range [lo-hi] of a bracketed class. *)
Definition range (lo hi : N) : N -> bool := fun ch =>
  let l := sre_lower ch in
  ((lo <=? l) && (l <=? hi))%N
  || existsb (fun c => ((lo <=? c) && (c <=? hi))%N && existsb (N.eqb l) (fixes c))
             [0x69%N; 0x73%N].

(** A bracketed class given by its members and ranges. *)
Definition any_of (ps : list (N -> bool)) : N -> bool := fun ch =>
  existsb (fun p => p ch) ps.

(** A literal word of the pattern. *)
Definition lit (w : string) : regex := seq (map (fun c => Chr (literal c)) (u w)).

(** [\s] for a [str] pattern: the characters of [str.isspace]. *)
Definition whitespace (ch : N) : bool :=
  existsb (N.eqb ch)
    [0x9; 0xA; 0xB; 0xC; 0xD; 0x1C; 0x1D; 0x1E; 0x1F; 0x20; 0x85; 0xA0;
     0x1680; 0x2000; 0x2001; 0x2002; 0x2003; 0x2004; 0x2005; 0x2006;
     0x2007; 0x2008; 0x2009; 0x200A; 0x2028; 0x2029; 0x202F; 0x205F;
     0x3000]%N.

End Re.

(** ** Exceptions and results *)

Inductive exn :=
| InvalidVersion (version : str)   (* packaging.version.InvalidVersion *)
| ValueError
| NameError (name : string)
| AttributeError
| TypeError.

(** A computation that returns or raises. *)
Inductive result (A : Type) :=
| Ok (a : A)
| Raise (e : exn).
Arguments Ok {A} a.
Arguments Raise {A} e.

#[export] Instance result_ret : MRet result := fun _ a => Ok a.
#[export] Instance result_bind : MBind result := fun _ _ f r =>
  match r with
  | Ok a => f a
  | Raise e => Raise e
  end.
#[export] Instance result_fmap : FMap result := fun _ _ f r =>
  match r with
  | Ok a => Ok (f a)
  | Raise e => Raise e
  end.

(** ** [packaging._structures] and [packaging.version] *)
Module version.

(** A value that is one of the two sentinels [Infinity] and
    [NegativeInfinity] of [_structures.py] or an ordinary value: the
    unions [CmpPrePostDevType] and [CmpLocalType] and the first component
    of a local-segment key. *)
Inductive sentinel (A : Type) :=
| Infinity
| NegativeInfinity
| Val (a : A).
Arguments Infinity {A}.
Arguments NegativeInfinity {A}.
Arguments Val {A} a.

(** [InfinityType] answers [__lt__], [__le__] with [False] and [__gt__],
    [__ge__] with [True], whatever the other operand; [NegativeInfinityType]
    the opposite; both answer [__eq__] by the class of the other operand.
    With an ordinary value (a tuple or an [int]) on the left and a sentinel
    on the right, the left operand's method returns [NotImplemented] and
    Python asks the sentinel's reflected method. *)
Section SentinelCompare.
Context {A : Type} `{PyCmp A}.

Definition sentinel_eq (x y : sentinel A) : bool :=
  match x, y with
  | Infinity, Infinity => true                   (* isinstance(other, InfinityType) *)
  | NegativeInfinity, NegativeInfinity => true
  | Val a, Val b => py_eq a b
  | _, _ => false
  end.

Definition sentinel_lt (x y : sentinel A) : bool :=
  match x, y with
  | Infinity, _ => false                         (* InfinityType.__lt__ *)
  | NegativeInfinity, _ => true                  (* NegativeInfinityType.__lt__ *)
  | Val a, Val b => py_lt a b
  | Val _, Infinity => true                      (* reflected: InfinityType.__gt__ *)
  | Val _, NegativeInfinity => false             (* reflected: NegativeInfinityType.__gt__ *)
  end.

Definition sentinel_ge (x y : sentinel A) : bool :=
  match x, y with
  | Infinity, _ => true                          (* InfinityType.__ge__ *)
  | NegativeInfinity, _ => false                 (* NegativeInfinityType.__ge__ *)
  | Val a, Val b => py_ge a b
  | Val _, Infinity => false                     (* reflected: InfinityType.__le__ *)
  | Val _, NegativeInfinity => true              (* reflected: NegativeInfinityType.__le__ *)
  end.
End SentinelCompare.

#[export] Instance sentinel_cmp {A} `{PyCmp A} : PyCmp (sentinel A) :=
  {| py_eq := sentinel_eq; py_lt := sentinel_lt; py_ge := sentinel_ge |}.

(** [LocalType = Tuple[Union[int, str], ...]] *)
Inductive int_or_str :=
| LInt (i : Z)
| LStr (s : str).

Definition LocalType := list int_or_str.

(** [CmpPrePostDevType = Union[InfinityType, NegativeInfinityType, Tuple[str, int]]] *)
Definition CmpPrePostDevType := sentinel (str * Z).

(** [CmpLocalType]: [NegativeInfinity], or a tuple of [(int, str)] and
    [(NegativeInfinity, str)] pairs. *)
Definition CmpLocalType := sentinel (list (sentinel Z * str)).

Definition CmpKey : Type :=
  Z * list Z * CmpPrePostDevType * CmpPrePostDevType * CmpPrePostDevType
  * CmpLocalType.

Record _Version := {
  epoch : Z;
  release : list Z;
  dev : option (str * Z);
  pre : option (str * Z);
  post : option (str * Z);
  local : option LocalType
}.

(** A [Version] object: the parsed pieces and the key every comparison uses. *)
Record Version := {
  _version : _Version;
  _key : CmpKey
}.

(** [_BaseVersion.__eq__], [__lt__] and [__ge__]: the same operator on the
    keys. *)
#[export] Instance Version_cmp : PyCmp Version :=
  {| py_eq := fun self other => py_eq (_key self) (_key other);
     py_lt := fun self other => py_lt (_key self) (_key other);
     py_ge := fun self other => py_ge (_key self) (_key other) |}.

(** *** Built-ins on the strings the pattern lets through *)

Definition is_ascii_digit (c : N) : bool := ((48 <=? c) && (c <=? 57))%N.

(** [int(s)] for a [str]: the decimal value of a non-empty run of ASCII
    digits, [ValueError] on anything else (the other spellings [int]
    accepts cannot come out of a [[0-9]+] group or of [isdigit]; the
    interpreter's optional limit on the number of digits is left out). *)
Definition int (s : str) : result Z :=
  match s with
  | [] => Raise ValueError
  | _ :: _ =>
      if forallb is_ascii_digit s
      then Ok (foldl (fun acc c => 10 * acc + Z.of_N (c - 48)) 0 s)
      else Raise ValueError
  end.

(** [str.isdigit], on the alphabet of the local segment, where the only
    digits are the ASCII ones. *)
Definition isdigit (s : str) : bool :=
  match s with
  | [] => false
  | _ :: _ => forallb is_ascii_digit s
  end.

(** [str.lower], on the alphabet the letter and local groups admit: the
    ASCII letters, U+0130 (which lowers to [i] followed by U+0307), U+0131
    and U+017F (unchanged) and U+212A (which lowers to [k]). *)
Definition lower_char (c : N) : list N :=
  if ((65 <=? c) && (c <=? 90))%N then [(c + 32)%N]
  else if (c =? 0x130)%N then [0x69%N; 0x307%N]
  else if (c =? 0x212A)%N then [0x6B%N]
  else [c].

Definition lower (s : str) : str := concat (map lower_char s).

(** Truth value of an optional string: [None] and [""] are false. *)
Definition truthy (o : option str) : bool :=
  match o with
  | Some (_ :: _) => true
  | _ => false
  end.

(** [a or b] *)
Definition or_ (a b : option str) : option str := if truthy a then a else b.

(** [itertools.dropwhile] *)
Fixpoint dropwhile {A} (p : A -> bool) (l : list A) : list A :=
  match l with
  | [] => []
  | x :: l' => if p x then dropwhile p l' else l
  end.

(** *** The version pattern

    [_VERSION_PATTERN], compiled by [Version] as
    [re.compile(r"^\s*" + VERSION_PATTERN + r"\s*$", re.VERBOSE | re.IGNORECASE)]. *)
Section Pattern.
Import Re.

Definition digits : regex := Plus (Chr (range 48 57)).               (* [0-9]+ *)
Definition separator : N -> bool :=
  any_of [literal 45; literal 95; literal 46].                        (* [-_\.] *)
Definition alnum : regex :=
  Plus (Chr (any_of [range 97 122; range 48 57])).                    (* [a-z0-9]+ *)

Definition VERSION_PATTERN : regex := seq [
  Opt (lit "v");
  Opt (seq [Group "epoch" digits; lit "!"]);
  Group "release" (seq [digits; Star (seq [lit "."; digits])]);
  Opt (Group "pre" (seq [
    Opt (Chr separator);
    Group "pre_l" (alt (lit "alpha")
      [lit "a"; lit "beta"; lit "b"; lit "preview"; lit "pre"; lit "c"; lit "rc"]);
    Opt (Chr separator);
    Opt (Group "pre_n" digits)]));
  Opt (Group "post" (Alt
    (seq [lit "-"; Group "post_n1" digits])
    (seq [
      Opt (Chr separator);
      Group "post_l" (alt (lit "post") [lit "rev"; lit "r"]);
      Opt (Chr separator);
      Opt (Group "post_n2" digits)])));
  Opt (Group "dev" (seq [
    Opt (Chr separator);
    Group "dev_l" (lit "dev");
    Opt (Chr separator);
    Opt (Group "dev_n" digits)]));
  Opt (seq [lit "+";
            Group "local" (seq [alnum; Star (seq [Chr separator; alnum])])])
].

Definition _regex : regex :=
  seq [Bol; Star (Chr whitespace); VERSION_PATTERN; Star (Chr whitespace); Eol].
End Pattern.

(** *** Parsing *)

Definition _parse_letter_version (letter number : option str)
    : result (option (str * Z)) :=
  if truthy letter then
    (* an implicit 0 when no numeral is associated with the letter *)
    n ← match number with
        | None => Ok 0
        | Some number => int number
        end;
    let letter := lower (default [] letter) in
    let letter :=
      if py_eq letter (u "alpha") then u "a"
      else if py_eq letter (u "beta") then u "b"
      else if existsb (py_eq letter) [u "c"; u "pre"; u "preview"] then u "rc"
      else if existsb (py_eq letter) [u "rev"; u "r"] then u "post"
      else letter in
    Ok (Some (letter, n))
  else if truthy number then
    (* a number without a letter: the implicit post release syntax, 1.0-1 *)
    n ← int (default [] number);
    Ok (Some (u "post", n))
  else Ok None.

(** [_local_version_separators = re.compile(r"[\._-]")] *)
Definition _local_version_separators (c : N) : bool :=
  existsb (N.eqb c) [46; 95; 45]%N.

Definition _parse_local_version (local : option str) : result (option LocalType) :=
  match local with
  | Some local =>
      parts ← mapM (fun part =>
                 if negb (isdigit part) then Ok (LStr (lower part))
                 else LInt <$> int part)
               (Re.split _local_version_separators local);
      Ok (Some parts)
  | None => Ok None
  end.

Definition _cmpkey (epoch : Z) (release : list Z)
    (pre post dev : option (str * Z)) (local : option LocalType) : CmpKey :=
  (* the release with its trailing zeros removed *)
  let _release := rev (dropwhile (Z.eqb 0) (rev release)) in
  (* 1.0.dev0 sorts before 1.0a0: only without a pre and a post segment *)
  let _pre : CmpPrePostDevType :=
    if bool_decide (pre = None) && bool_decide (post = None)
       && negb (bool_decide (dev = None))
    then NegativeInfinity
    else match pre with
         | None => Infinity
         | Some pre => Val pre
         end in
  let _post : CmpPrePostDevType :=
    match post with
    | None => NegativeInfinity
    | Some post => Val post
    end in
  let _dev : CmpPrePostDevType :=
    match dev with
    | None => Infinity
    | Some dev => Val dev
    end in
  let _local : CmpLocalType :=
    match local with
    | None => NegativeInfinity
    | Some local =>
        Val (map (fun i => match i with
                           | LInt i => (Val i, u "")
                           | LStr i => (NegativeInfinity, i)
                           end) local)
    end in
  (epoch, _release, _pre, _post, _dev, _local).

(** [Version.__init__] *)
Definition Version__init__ (version : str) : result Version :=
  match Re.search _regex version with
  | None => Raise (InvalidVersion version)
  | Some m =>
      epoch' ← (if truthy (Re.group m "epoch")
                then int (default [] (Re.group m "epoch")) else Ok 0);
      release' ← match Re.group m "release" with
                 | Some r => mapM int (Re.split (N.eqb 46) r)
                 | None => Raise AttributeError
                 end;
      pre' ← _parse_letter_version (Re.group m "pre_l") (Re.group m "pre_n");
      post' ← _parse_letter_version (Re.group m "post_l")
                (or_ (Re.group m "post_n1") (Re.group m "post_n2"));
      dev' ← _parse_letter_version (Re.group m "dev_l") (Re.group m "dev_n");
      local' ← _parse_local_version (Re.group m "local");
      let v := {| epoch := epoch'; release := release'; dev := dev';
                  pre := pre'; post := post'; local := local' |} in
      Ok {| _version := v;
            _key := _cmpkey (epoch v) (release v) (pre v) (post v) (dev v)
                            (local v) |}
  end.

Definition parse (version : str) : result Version := Version__init__ version.

End version.

(** ** The module [cudf.core._compat]

    The module body runs once, at import, over the module's global
    namespace.  A statement is a computation that reads and binds names in
    that namespace and returns or raises; an exception ends the body and
    leaves the namespace as it was when raised. *)
Module Compat.
Import (hints) version.

(** The two modules the body imports.  Of [pandas] the body reads only the
    attribute [__version__]: the version string of the installed pandas. *)
Inductive pymodule :=
| packaging_version
| pandas (__version__ : str).

(** The objects the namespace holds. *)
Inductive object :=
| VStr (s : str)
| VBool (b : bool)
| VVersion (v : version.Version)
| VModule (m : pymodule).

Definition M (A : Type) : Type :=
  gmap string object -> gmap string object * result A.

#[export] Instance M_ret : MRet M := fun _ a g => (g, Ok a).
#[export] Instance M_bind : MBind M := fun _ _ f m g =>
  match m g with
  | (g', Ok a) => f a g'
  | (g', Raise e) => (g', Raise e)
  end.

Definition raise {A} (e : exn) : M A := fun g => (g, Raise e).

(** A call into the library: its exception, if any, is raised as it is. *)
Definition call {A} (r : result A) : M A := fun g => (g, r).

(** Reading a global name. *)
Definition load (name : string) : M object := fun g =>
  match g !! name with
  | Some o => (g, Ok o)
  | None => (g, Raise (NameError name))
  end.

(** [name = o] *)
Definition store (name : string) (o : object) : M unit := fun g =>
  (<[name := o]> g, Ok tt).

(** [o.__version__] *)
Definition getattr___version__ (o : object) : M object :=
  match o with
  | VModule (pandas s) => mret (VStr s)
  | _ => raise AttributeError
  end.

(** [o.parse(arg)] *)
Definition call_parse (o arg : object) : M object :=
  match o with
  | VModule packaging_version =>
      match arg with
      | VStr s => v ← call (version.parse s); mret (VVersion v)
      | _ => raise TypeError
      end
  | _ => raise AttributeError
  end.

(** [a >= b] and [a < b]: between two [Version] objects the comparison of
    [_BaseVersion], between two [str] or two [bool] the built-in one;
    [TypeError] for the other pairs of these objects, none of which
    supports the operators. *)
Definition ge (a b : object) : M object :=
  match a, b with
  | VVersion x, VVersion y => mret (VBool (py_ge x y))
  | VStr x, VStr y => mret (VBool (py_ge x y))
  | VBool x, VBool y => mret (VBool (py_ge (Z.b2z x) (Z.b2z y)))
  | _, _ => raise TypeError
  end.

Definition lt (a b : object) : M object :=
  match a, b with
  | VVersion x, VVersion y => mret (VBool (py_lt x y))
  | VStr x, VStr y => mret (VBool (py_lt x y))
  | VBool x, VBool y => mret (VBool (py_lt (Z.b2z x) (Z.b2z y)))
  | _, _ => raise TypeError
  end.

(** The module body, in an environment where [packaging] is installed and
    the installed pandas reports [pd__version__]. *)
Definition body (pd__version__ : str) : M unit :=
  (* from packaging import version *)
  store "version" (VModule packaging_version);;
  (* import pandas as pd *)
  store "pd" (VModule (pandas pd__version__));;
  (* PANDAS_CURRENT_SUPPORTED_VERSION = version.parse("2.2.3") *)
  (version ← load "version";
   v ← call_parse version (VStr (u "2.2.3"));
   store "PANDAS_CURRENT_SUPPORTED_VERSION" v);;
  (* PANDAS_VERSION = version.parse(pd.__version__) *)
  (version ← load "version";
   pd ← load "pd";
   s ← getattr___version__ pd;
   v ← call_parse version s;
   store "PANDAS_VERSION" v);;
  (* PANDAS_GE_210 = PANDAS_VERSION >= version.parse("2.1.0") *)
  (a ← load "PANDAS_VERSION";
   version ← load "version";
   b ← call_parse version (VStr (u "2.1.0"));
   r ← ge a b;
   store "PANDAS_GE_210" r);;
  (* PANDAS_GE_220 = PANDAS_VERSION >= version.parse("2.2.0") *)
  (a ← load "PANDAS_VERSION";
   version ← load "version";
   b ← call_parse version (VStr (u "2.2.0"));
   r ← ge a b;
   store "PANDAS_GE_220" r);;
  (* PANDAS_LT_300 = PANDAS_VERSION < version.parse("3.0.0") *)
  (a ← load "PANDAS_VERSION";
   version ← load "version";
   b ← call_parse version (VStr (u "3.0.0"));
   r ← lt a b;
   store "PANDAS_LT_300" r).

(** Importing the module: the namespace the body leaves from the globals
    [g] it starts with, and whether it returned or raised. *)
Definition exec_module (pd__version__ : str) (g : gmap string object)
    : gmap string object * result unit :=
  body pd__version__ g.

Definition globals (r : gmap string object * result unit) : gmap string object :=
  fst r.
Definition outcome (r : gmap string object * result unit) : result unit :=
  snd r.

(** The five names the body assigns. *)
Definition constants : gset string :=
  {[ "PANDAS_CURRENT_SUPPORTED_VERSION"; "PANDAS_VERSION"; "PANDAS_GE_210";
     "PANDAS_GE_220"; "PANDAS_LT_300" ]}.

(** The three version-comparison flags. *)
Definition flags : gset string :=
  {[ "PANDAS_GE_210"; "PANDAS_GE_220"; "PANDAS_LT_300" ]}.

(** A name is public when it does not begin with an underscore: the names
    [from cudf.core._compat import *] binds, the module having no
    [__all__]. *)
Definition is_public (name : string) : bool :=
  match name with
  | String "_" _ => false
  | _ => true
  end.

Definition public_names (g : gmap string object) : gset string :=
  filter (fun name => is_public name = true) (dom g).

(** The [Version] object of a final release [N.N.N]: no epoch and no pre,
    post, dev or local segment. *)
Definition final_release (release : list Z) : version.Version :=
  {| version._version :=
       {| version.epoch := 0; version.release := release;
          version.dev := None; version.pre := None; version.post := None;
          version.local := None |};
     version._key := version._cmpkey 0 release None None None None |}.

Definition V_2_1_0 : version.Version := final_release [2; 1; 0].
Definition V_2_2_0 : version.Version := final_release [2; 2; 0].
Definition V_2_2_3 : version.Version := final_release [2; 2; 3].
Definition V_3_0_0 : version.Version := final_release [3; 0; 0].

(** Two release tuples that differ in trailing zeros only: 3.0 and 3.0.0. *)
Definition same_release (r1 r2 : list Z) : Prop :=
  rev (version.dropwhile (Z.eqb 0) (rev r1))
  = rev (version.dropwhile (Z.eqb 0) (rev r2)).

(** [v] is a pre-release or a development release of the final release
    [r]: the same release numbers, no epoch, a pre or a dev segment, and no
    post segment (a dev release of a post release comes after the final
    release). *)
Definition prerelease_of (r : list Z) (v : version.Version) : Prop :=
  version.epoch (version._version v) = 0
  /\ same_release (version.release (version._version v)) r
  /\ version.post (version._version v) = None
  /\ (version.pre (version._version v) <> None
      \/ version.dev (version._version v) <> None).

(** The namespace the body leaves when every statement returns, and the
    one it leaves when [version.parse(pd.__version__)] raises; [body_returns]
    and [body_raises] below show these are what [body] computes. *)
Definition bound_after_import (pd__version__ : str) (g : gmap string object)
    : gmap string object :=
  <["PANDAS_CURRENT_SUPPORTED_VERSION" := VVersion V_2_2_3]>
    (<["pd" := VModule (pandas pd__version__)]>
       (<["version" := VModule packaging_version]> g)).

Definition bound_at_end (pd__version__ : str) (v : version.Version)
    (g : gmap string object) : gmap string object :=
  <["PANDAS_LT_300" := VBool (py_lt v V_3_0_0)]>
    (<["PANDAS_GE_220" := VBool (py_ge v V_2_2_0)]>
       (<["PANDAS_GE_210" := VBool (py_ge v V_2_1_0)]>
          (<["PANDAS_VERSION" := VVersion v]>
             (bound_after_import pd__version__ g)))).

End Compat.

(** ** Further vocabulary for the properties *)
Module Probe.

(** The value bound to a flag, when it is bound to a [bool]. *)
Definition flag (g : gmap string Compat.object) (name : string) : option bool :=
  match g !! name with
  | Some (Compat.VBool b) => Some b
  | _ => None
  end.

(** The three flags after an import, in the order of the source:
    [PANDAS_GE_210], [PANDAS_GE_220], [PANDAS_LT_300]. *)
Definition flags_of (r : gmap string Compat.object * result unit)
    : option bool * option bool * option bool :=
  (flag (Compat.globals r) "PANDAS_GE_210",
   flag (Compat.globals r) "PANDAS_GE_220",
   flag (Compat.globals r) "PANDAS_LT_300").

(** The seven names the body binds: its two imports and five constants. *)
Definition bound_names : gset string :=
  Compat.constants ∪ {[ "version"; "pd" ]}.

(** [v] is a post-release of the final release [r], or a development
    release of one: the same release numbers, no epoch, no pre segment and
    a post segment. *)
Definition postrelease_of (r : list Z) (v : version.Version) : Prop :=
  version.epoch (version._version v) = 0
  /\ Compat.same_release (version.release (version._version v)) r
  /\ version.pre (version._version v) = None
  /\ version.post (version._version v) <> None.

(** Two versions that differ at most in their local segment, the part
    after [+]. *)
Definition same_public_version (v1 v2 : version.Version) : Prop :=
  version.epoch (version._version v1) = version.epoch (version._version v2)
  /\ version.release (version._version v1)
     = version.release (version._version v2)
  /\ version.pre (version._version v1) = version.pre (version._version v2)
  /\ version.post (version._version v1) = version.post (version._version v2)
  /\ version.dev (version._version v1) = version.dev (version._version v2).

(** A final release, possibly with a local segment: no epoch and no pre,
    post or dev segment. *)
Definition is_final (v : version.Version) : Prop :=
  version.epoch (version._version v) = 0
  /\ version.pre (version._version v) = None
  /\ version.post (version._version v) = None
  /\ version.dev (version._version v) = None.

(** The first two release numbers, with 0 for a missing one: the
    release of "3" is 3.0. *)
Definition major (v : version.Version) : Z :=
  nth 0 (version.release (version._version v)) 0.
Definition minor (v : version.Version) : Z :=
  nth 1 (version.release (version._version v)) 0.

(** The release component of a key: the release numbers without their
    trailing zeros, as [_cmpkey] computes it. *)
Definition trim (release : list Z) : list Z :=
  rev (version.dropwhile (Z.eqb 0) (rev release)).

End Probe.

(** ** The words of a pattern

    What a successful run of the matcher says about the text it consumed
    and the groups it set, for the proofs about [version.parse]. *)
Module Words.

(** The words a pattern can consume. *)
Inductive Lang : Re.regex -> list N -> Prop :=
| lang_eps : Lang Re.Eps []
| lang_chr (p : N -> bool) (c : N) : p c = true -> Lang (Re.Chr p) [c]
| lang_seq (r1 r2 : Re.regex) (w1 w2 : list N) :
    Lang r1 w1 -> Lang r2 w2 -> Lang (Re.Seq r1 r2) (w1 ++ w2)
| lang_alt_l (r1 r2 : Re.regex) (w : list N) :
    Lang r1 w -> Lang (Re.Alt r1 r2) w
| lang_alt_r (r1 r2 : Re.regex) (w : list N) :
    Lang r2 w -> Lang (Re.Alt r1 r2) w
| lang_opt_some (r : Re.regex) (w : list N) : Lang r w -> Lang (Re.Opt r) w
| lang_opt_none (r : Re.regex) : Lang (Re.Opt r) []
| lang_star_nil (r : Re.regex) : Lang (Re.Star r) []
| lang_star_step (r : Re.regex) (w1 w2 : list N) :
    Lang r w1 -> Lang (Re.Star r) w2 -> Lang (Re.Star r) (w1 ++ w2)
| lang_group (name : string) (r : Re.regex) (w : list N) :
    Lang r w -> Lang (Re.Group name r) w
| lang_bol : Lang Re.Bol []
| lang_eol : Lang Re.Eol [].

(** A pattern respects a discipline [D] on group texts when every word its
    group [name] can consume satisfies [D name]. *)
Fixpoint respects (D : string -> list N -> Prop) (r : Re.regex) : Prop :=
  match r with
  | Re.Seq a b | Re.Alt a b => respects D a /\ respects D b
  | Re.Opt a | Re.Star a => respects D a
  | Re.Group name a => respects D a /\ forall w, Lang a w -> D name w
  | _ => True
  end.

(** The groups every match of a pattern sets. *)
Fixpoint sets (r : Re.regex) (name : string) : bool :=
  match r with
  | Re.Seq a b => sets a name || sets b name
  | Re.Alt a b => sets a name && sets b name
  | Re.Group name' a => String.eqb name' name || sets a name
  | _ => false
  end.

Definition ok_groups (D : string -> list N -> Prop)
    (G : gmap string (list N)) : Prop :=
  forall (name : string) (text : list N), G !! name = Some text -> D name text.

(** The discipline of the version pattern: the numeric groups hold
    non-empty runs of ASCII digits, and the release group holds such runs
    separated by dots. *)
Definition numeric_groups : list string :=
  ["epoch"; "pre_n"; "post_n1"; "post_n2"; "dev_n"]%string.

Definition version_groups (name : string) (text : list N) : Prop :=
  (name ∈ numeric_groups -> version.isdigit text = true)
  /\ (name = "release"%string ->
      Forall (fun part => version.isdigit part = true)
             (Re.split (N.eqb 46) text)).

End Words.

(** * Properties *)

Import (hints) version Compat.

(** ** The comparison operators are a total order on keys *)
Section Laws.
Context {A : Type} `{PyCmpLaws A}.

Lemma py_eq_reflect (a b : A) : reflect (a = b) (py_eq a b).
Proof. apply iff_reflect. symmetry. apply py_eq_iff. Qed.

Lemma py_eq_false (a b : A) : py_eq a b = false <-> a <> b.
Proof. destruct (py_eq_reflect a b); split; congruence. Qed.

Lemma py_eq_same (a : A) : py_eq a a = true.
Proof. now apply py_eq_iff. Qed.

(** Two strict steps never close a cycle. *)
Lemma py_lt_chain (a b c : A) :
  a <> b -> b <> c -> py_lt a b = true -> py_lt b c = true ->
  a <> c /\ py_lt a c = true.
Proof.
  intros Hab Hbc L1 L2.
  assert (Hac : a <> c).
  { intros ->. rewrite (py_lt_total c b) in L2 by assumption.
    rewrite L1 in L2. discriminate. }
  split; [assumption|]. now apply (py_lt_trans a b c).
Qed.
End Laws.

Tactic Notation "by_eq" constr(x) constr(y) :=
  let E := fresh "E" in
  destruct (py_eq_reflect x y) as [E|E]; [try subst | idtac].

#[export] Instance int_laws : PyCmpLaws Z.
Proof.
  split; simpl; intros.
  - apply Z.eqb_eq.
  - rewrite Z.geb_leb, Z.leb_antisym. reflexivity.
  - destruct (Z.ltb_spec a b), (Z.ltb_spec b a); simpl; try reflexivity; lia.
  - apply Z.ltb_lt. apply Z.ltb_lt in H2, H3. lia.
Qed.

#[export] Instance int_refl : PyCmpRefl Z.
Proof.
  split; simpl; intros.
  - rewrite Z.geb_leb. apply Z.leb_refl.
  - apply Z.ltb_irrefl.
Qed.

#[export] Instance codepoint_laws : PyCmpLaws N.
Proof.
  split; simpl; intros.
  - apply N.eqb_eq.
  - rewrite N.leb_antisym. reflexivity.
  - destruct (N.ltb_spec a b), (N.ltb_spec b a); simpl; try reflexivity; lia.
  - apply N.ltb_lt. apply N.ltb_lt in H2, H3. lia.
Qed.

#[export] Instance codepoint_refl : PyCmpRefl N.
Proof.
  split; simpl; intros.
  - apply N.leb_refl.
  - apply N.ltb_irrefl.
Qed.

Section SequenceLaws.
Context {A : Type} `{PyCmpLaws A}.

Lemma seq_eq_iff (x y : list A) : seq_eq x y = true <-> x = y.
Proof.
  revert y. induction x as [|a x IH]; intros [|b y]; simpl;
    try (split; congruence).
  rewrite andb_true_iff, py_eq_iff, IH. split.
  - intros [-> ->]. reflexivity.
  - intros [= -> ->]. split; reflexivity.
Qed.

Lemma seq_ge_negb_lt (x y : list A) : seq_ge x y = negb (seq_lt x y).
Proof.
  revert y. induction x as [|a x IH]; intros [|b y]; simpl; try reflexivity.
  by_eq a b; [apply IH | now apply py_ge_neq].
Qed.

Lemma seq_lt_total (x y : list A) :
  x <> y -> seq_lt y x = negb (seq_lt x y).
Proof.
  revert y. induction x as [|a x IH]; intros [|b y] Hne; simpl;
    try reflexivity; try congruence.
  by_eq a b.
  - rewrite py_eq_same. apply IH. congruence.
  - replace (py_eq b a) with false
      by (symmetry; apply py_eq_false; congruence).
    now apply py_lt_total.
Qed.

Lemma seq_lt_chain (x y z : list A) :
  seq_lt x y = true -> seq_lt y z = true -> seq_lt x z = true.
Proof.
  revert y z. induction x as [|a x IH]; intros [|b y] [|c z]; simpl;
    try congruence.
  intros L1 L2.
  destruct (py_eq_reflect a b) as [Eab|Nab], (py_eq_reflect b c) as [Ebc|Nbc].
  - subst b c. rewrite py_eq_same. now apply (IH y z).
  - subst b. now rewrite (proj2 (py_eq_false a c)).
  - subst c. now rewrite (proj2 (py_eq_false a b)).
  - destruct (py_lt_chain a b c) as [Hac L]; try assumption.
    now rewrite (proj2 (py_eq_false a c)).
Qed.
End SequenceLaws.

#[export] Instance seq_laws {A} `{PyCmpLaws A} : PyCmpLaws (list A).
Proof.
  split; simpl; intros.
  - apply seq_eq_iff.
  - apply seq_ge_negb_lt.
  - now apply seq_lt_total.
  - now apply (seq_lt_chain a b c).
Qed.

#[export] Instance seq_refl {A} `{PyCmpLaws A} : PyCmpRefl (list A).
Proof.
  split; simpl.
  - induction a as [|a x IH]; simpl; [reflexivity|]. now rewrite py_eq_same.
  - induction a as [|a x IH]; simpl; [reflexivity|]. now rewrite py_eq_same.
Qed.

Section PairLaws.
Context {A B : Type} `{PyCmpLaws A} `{PyCmpLaws B}.

Lemma pair_eq_iff (x y : A * B) : pair_eq x y = true <-> x = y.
Proof.
  destruct x as [a b], y as [c d]. unfold pair_eq; simpl.
  rewrite andb_true_iff, !py_eq_iff. split.
  - intros [-> ->]. reflexivity.
  - intros [= -> ->]. split; reflexivity.
Qed.

Lemma pair_ge_negb_lt (x y : A * B) : pair_ge x y = negb (pair_lt x y).
Proof.
  destruct x as [a b], y as [c d]. unfold pair_ge, pair_lt; simpl.
  destruct (py_eq_reflect a c); [|now apply py_ge_neq].
  destruct (py_eq_reflect b d); [reflexivity | now apply py_ge_neq].
Qed.

Lemma pair_lt_total (x y : A * B) :
  x <> y -> pair_lt y x = negb (pair_lt x y).
Proof.
  destruct x as [a b], y as [c d]. unfold pair_lt; simpl. intros Hne.
  destruct (py_eq_reflect a c) as [Eac|Nac].
  - subst c. rewrite py_eq_same.
    destruct (py_eq_reflect b d) as [Ebd|Nbd]; [congruence|].
    rewrite (proj2 (py_eq_false d b)) by congruence.
    now apply py_lt_total.
  - rewrite (proj2 (py_eq_false c a)) by congruence.
    now apply py_lt_total.
Qed.

Lemma pair_lt_chain (x y z : A * B) :
  pair_lt x y = true -> pair_lt y z = true -> pair_lt x z = true.
Proof.
  destruct x as [a1 b1], y as [a2 b2], z as [a3 b3].
  unfold pair_lt; simpl.
  destruct (py_eq_reflect a1 a2) as [E12|N12],
           (py_eq_reflect a2 a3) as [E23|N23].
  - subst a2 a3. rewrite py_eq_same.
    destruct (py_eq_reflect b1 b2) as [?|Nb12]; [discriminate|].
    destruct (py_eq_reflect b2 b3) as [?|Nb23]; [discriminate|].
    intros L1 L2. destruct (py_lt_chain b1 b2 b3) as [Nb13 L]; try assumption.
    now rewrite (proj2 (py_eq_false b1 b3)).
  - subst a2. rewrite (proj2 (py_eq_false a1 a3)) by assumption.
    destruct (py_eq_reflect b1 b2); [discriminate|]. auto.
  - subst a3. rewrite (proj2 (py_eq_false a1 a2)) by assumption.
    destruct (py_eq_reflect b2 b3); [discriminate|]. auto.
  - intros L1 L2. destruct (py_lt_chain a1 a2 a3) as [N13 L]; try assumption.
    now rewrite (proj2 (py_eq_false a1 a3)).
Qed.
End PairLaws.

#[export] Instance pair_laws {A B} `{PyCmpLaws A} `{PyCmpLaws B}
  : PyCmpLaws (A * B).
Proof.
  split; simpl; intros.
  - apply pair_eq_iff.
  - apply pair_ge_negb_lt.
  - now apply pair_lt_total.
  - now apply (pair_lt_chain a b c).
Qed.

#[export] Instance pair_refl {A B} `{PyCmpLaws A} `{PyCmpLaws B}
  : PyCmpRefl (A * B).
Proof.
  split; simpl; intros [a b]; unfold pair_ge, pair_lt; simpl;
    now rewrite !py_eq_same.
Qed.

Section SentinelLaws.
Import version.
Context {A : Type} `{PyCmpLaws A}.

#[export] Instance sentinel_laws : PyCmpLaws (sentinel A).
Proof.
  split.
  - intros [| |a] [| |b]; simpl; try (split; congruence).
    rewrite py_eq_iff. split; congruence.
  - intros [| |a] [| |b] Hne; simpl; try reflexivity; try congruence.
    apply py_ge_neq. congruence.
  - intros [| |a] [| |b] Hne; simpl; try reflexivity; try congruence.
    apply py_lt_total. congruence.
  - intros [| |a] [| |b] [| |c] N1 N2 N3; simpl; try congruence.
    apply py_lt_trans; congruence.
Qed.
End SentinelLaws.

(** With the laws and the two facts on equal operands, [>=] is the
    complement of [<], and a reflexive, transitive and total relation. *)
Section Order.
Context {A : Type} `{PyCmpLaws A} `{!PyCmpRefl A}.

Lemma py_ge_negb_lt (a b : A) : py_ge a b = negb (py_lt a b).
Proof.
  destruct (py_eq_reflect a b) as [->|Hne].
  - now rewrite py_ge_refl, py_lt_irrefl.
  - now apply py_ge_neq.
Qed.

Lemma py_lt_negb_ge (a b : A) : py_lt a b = negb (py_ge a b).
Proof. rewrite py_ge_negb_lt. now destruct (py_lt a b). Qed.

Lemma py_ge_total (a b : A) : py_ge a b = true \/ py_ge b a = true.
Proof.
  destruct (py_eq_reflect a b) as [->|Hne].
  - left. apply py_ge_refl.
  - rewrite !py_ge_negb_lt, (py_lt_total a b) by assumption.
    destruct (py_lt a b); auto.
Qed.

Lemma py_ge_trans (a b c : A) :
  py_ge a b = true -> py_ge b c = true -> py_ge a c = true.
Proof.
  rewrite !py_ge_negb_lt, !negb_true_iff. intros L1 L2.
  destruct (py_eq_reflect a b) as [->|Nab]; [assumption|].
  destruct (py_eq_reflect b c) as [->|Nbc]; [assumption|].
  destruct (py_eq_reflect a c) as [->|Nac]; [apply py_lt_irrefl|].
  destruct (py_lt a c) eqn:L3; [|reflexivity].
  rewrite (py_lt_total b a) in L1 by congruence.
  rewrite (py_lt_total c b) in L2 by congruence.
  apply negb_false_iff in L1, L2.
  destruct (py_lt_chain c b a) as [_ L]; try congruence.
  rewrite (py_lt_total a c) in L by assumption. rewrite L3 in L. discriminate.
Qed.

Lemma py_ge_antisym (a b : A) :
  py_ge a b = true -> py_ge b a = true -> a = b.
Proof.
  rewrite !py_ge_negb_lt, !negb_true_iff. intros L1 L2.
  destruct (py_eq_reflect a b) as [->|Nab]; [reflexivity|].
  rewrite (py_lt_total a b) in L2 by assumption. rewrite L1 in L2.
  discriminate.
Qed.
End Order.

(** The key order: every operand type of a key obeys the laws. *)
Lemma key_ge_trans (a b c : version.CmpKey) :
  py_ge a b = true -> py_ge b c = true -> py_ge a c = true.
Proof. apply py_ge_trans. Qed.

Lemma key_lt_negb_ge (a b : version.CmpKey) : py_lt a b = negb (py_ge a b).
Proof. apply py_lt_negb_ge. Qed.

Lemma key_eq_iff (a b : version.CmpKey) : py_eq a b = true <-> a = b.
Proof. apply py_eq_iff. Qed.

(** On [Version] objects [>=] is reflexive, transitive and total, and [<]
    is its complement. *)
Lemma version_ge_total_preorder (a b c : version.Version) :
  py_ge a a = true
  /\ (py_ge a b = true -> py_ge b c = true -> py_ge a c = true)
  /\ (py_ge a b = true \/ py_ge b a = true)
  /\ py_lt a b = negb (py_ge a b).
Proof.
  unfold py_ge, py_lt, version.Version_cmp. repeat split.
  - apply py_ge_refl.
  - apply py_ge_trans.
  - apply py_ge_total.
  - apply py_lt_negb_ge.
Qed.

(** ** The thresholds parse *)

Lemma parse_2_2_3 : version.parse (u "2.2.3") = Ok Compat.V_2_2_3.
Proof. vm_compute. reflexivity. Qed.

Lemma parse_2_1_0 : version.parse (u "2.1.0") = Ok Compat.V_2_1_0.
Proof. vm_compute. reflexivity. Qed.

Lemma parse_2_2_0 : version.parse (u "2.2.0") = Ok Compat.V_2_2_0.
Proof. vm_compute. reflexivity. Qed.

Lemma parse_3_0_0 : version.parse (u "3.0.0") = Ok Compat.V_3_0_0.
Proof. vm_compute. reflexivity. Qed.

(** ** What the body computes *)

Ltac run_body :=
  cbv beta iota delta
    [Compat.exec_module Compat.body mbind Compat.M_bind mret Compat.M_ret
     Compat.store Compat.load Compat.call Compat.call_parse Compat.raise
     Compat.getattr___version__ Compat.ge Compat.lt].

Ltac step_body H :=
  first [ rewrite lookup_insert_eq
        | rewrite lookup_insert_ne by done
        | rewrite parse_2_2_3
        | rewrite parse_2_1_0
        | rewrite parse_2_2_0
        | rewrite parse_3_0_0
        | rewrite H ];
  cbv beta iota.

Lemma body_returns (s : str) (v : version.Version) (g : gmap string Compat.object) :
  version.parse s = Ok v ->
  Compat.body s g = (Compat.bound_at_end s v g, Ok tt).
Proof.
  intros Hparse. run_body. repeat step_body Hparse. reflexivity.
Qed.

Lemma body_raises (s : str) (e : exn) (g : gmap string Compat.object) :
  version.parse s = Raise e ->
  Compat.body s g = (Compat.bound_after_import s g, Raise e).
Proof.
  intros Hparse. run_body. repeat step_body Hparse. reflexivity.
Qed.

Lemma exec_returns (s : str) (v : version.Version) (g : gmap string Compat.object) :
  version.parse s = Ok v ->
  Compat.exec_module s g = (Compat.bound_at_end s v g, Ok tt).
Proof. apply body_returns. Qed.

Lemma exec_raises (s : str) (e : exn) (g : gmap string Compat.object) :
  version.parse s = Raise e ->
  Compat.exec_module s g = (Compat.bound_after_import s g, Raise e).
Proof. apply body_raises. Qed.

(** The import succeeds exactly when the installed version string parses. *)
Lemma exec_ok_inv (s : str) (g : gmap string Compat.object) :
  Compat.outcome (Compat.exec_module s g) = Ok tt ->
  exists v, version.parse s = Ok v.
Proof.
  destruct (version.parse s) as [v|e] eqn:Hparse.
  - intros _. now exists v.
  - rewrite (exec_raises s e g Hparse). discriminate.
Qed.

Ltac lookup_bound :=
  unfold Compat.globals, Compat.outcome, Compat.bound_at_end,
    Compat.bound_after_import; cbn [fst snd];
  repeat first [ rewrite lookup_insert_eq | rewrite lookup_insert_ne by done ].

(** ** The claims *)

(** C1. For every installed pandas version string that parses, the import
    succeeds, [PANDAS_VERSION] is the parsed installed version,
    [PANDAS_GE_210] is [True] if and only if that version is [>=] the
    version 2.1.0 and [PANDAS_GE_220] is [True] if and only if it is [>=]
    the version 2.2.0, where [>=] is the order of [Version] objects (the
    order of their keys), not the order of strings; the thresholds are the
    versions the strings "2.1.0" and "2.2.0" parse to. *)
Theorem ge_flags_compare_parsed_version
    (s : str) (v : version.Version) (g : gmap string Compat.object) :
  version.parse s = Ok v ->
  let r := Compat.exec_module s g in
  Compat.outcome r = Ok tt
  /\ Compat.globals r !! "PANDAS_VERSION" = Some (Compat.VVersion v)
  /\ Compat.globals r !! "PANDAS_GE_210"
     = Some (Compat.VBool (py_ge v Compat.V_2_1_0))
  /\ Compat.globals r !! "PANDAS_GE_220"
     = Some (Compat.VBool (py_ge v Compat.V_2_2_0))
  /\ version.parse (u "2.1.0") = Ok Compat.V_2_1_0
  /\ version.parse (u "2.2.0") = Ok Compat.V_2_2_0.
Proof.
  intros Hparse r. subst r. rewrite (exec_returns s v g Hparse).
  repeat split;
    first [ apply parse_2_1_0 | apply parse_2_2_0 | lookup_bound; reflexivity ].
Qed.

Lemma ge_flags_compare_parsed_version_witness :
  version.parse (u "2.10.0") = Ok (Compat.final_release [2; 10; 0])
  /\ let r := Compat.exec_module (u "2.10.0") ∅ in
     Compat.outcome r = Ok tt
     /\ Compat.globals r !! "PANDAS_VERSION"
        = Some (Compat.VVersion (Compat.final_release [2; 10; 0]))
     /\ Compat.globals r !! "PANDAS_GE_210"
        = Some (Compat.VBool (py_ge (Compat.final_release [2; 10; 0]) Compat.V_2_1_0))
     /\ Compat.globals r !! "PANDAS_GE_220"
        = Some (Compat.VBool (py_ge (Compat.final_release [2; 10; 0]) Compat.V_2_2_0))
     /\ version.parse (u "2.1.0") = Ok Compat.V_2_1_0
     /\ version.parse (u "2.2.0") = Ok Compat.V_2_2_0.
Proof.
  split; [vm_compute; reflexivity|].
  apply (ge_flags_compare_parsed_version (u "2.10.0")
           (Compat.final_release [2; 10; 0]) ∅).
  vm_compute; reflexivity.
Defined.

(** The order is on versions: pandas 2.10.0 is [>=] 2.2.0 and sets
    [PANDAS_GE_220], although the string "2.10.0" is below the string
    "2.2.0". *)
Lemma version_order_is_not_string_order :
  Compat.globals (Compat.exec_module (u "2.10.0") ∅) !! "PANDAS_GE_220"
  = Some (Compat.VBool true)
  /\ py_ge (u "2.10.0") (u "2.2.0") = false.
Proof. split; vm_compute; reflexivity. Qed.

(** C2, as stated, fails for [PANDAS_LT_300]: with pandas 2.2.3 installed
    the flag is [True] while the installed version is not [>=] 3.0.0. *)
Lemma lt_300_true_below_threshold :
  let r := Compat.exec_module (u "2.2.3") ∅ in
  Compat.outcome r = Ok tt
  /\ Compat.globals r !! "PANDAS_VERSION" = Some (Compat.VVersion Compat.V_2_2_3)
  /\ Compat.globals r !! "PANDAS_LT_300" = Some (Compat.VBool true)
  /\ py_ge Compat.V_2_2_3 Compat.V_3_0_0 = false.
Proof. repeat split; vm_compute; reflexivity. Qed.

(** C2, amended. For every installed version string that parses,
    [PANDAS_GE_210] and [PANDAS_GE_220] are [True] exactly when the
    installed version is [>=] the thresholds 2.1.0 and 2.2.0, and
    [PANDAS_LT_300] is [True] exactly when the installed version is
    strictly below 3.0.0, that is, exactly when it is not [>=] 3.0.0. *)
Theorem flags_compare_with_thresholds
    (s : str) (v : version.Version) (g : gmap string Compat.object) :
  version.parse s = Ok v ->
  let r := Compat.exec_module s g in
  Compat.globals r !! "PANDAS_GE_210"
  = Some (Compat.VBool (py_ge v Compat.V_2_1_0))
  /\ Compat.globals r !! "PANDAS_GE_220"
     = Some (Compat.VBool (py_ge v Compat.V_2_2_0))
  /\ Compat.globals r !! "PANDAS_LT_300"
     = Some (Compat.VBool (py_lt v Compat.V_3_0_0))
  /\ py_lt v Compat.V_3_0_0 = negb (py_ge v Compat.V_3_0_0).
Proof.
  intros Hparse r. subst r. rewrite (exec_returns s v g Hparse).
  repeat split; first [ apply key_lt_negb_ge | lookup_bound; reflexivity ].
Qed.

Lemma flags_compare_with_thresholds_witness :
  version.parse (u "3.1.0") = Ok (Compat.final_release [3; 1; 0])
  /\ let r := Compat.exec_module (u "3.1.0") ∅ in
     Compat.globals r !! "PANDAS_GE_210"
     = Some (Compat.VBool (py_ge (Compat.final_release [3; 1; 0]) Compat.V_2_1_0))
     /\ Compat.globals r !! "PANDAS_GE_220"
        = Some (Compat.VBool (py_ge (Compat.final_release [3; 1; 0]) Compat.V_2_2_0))
     /\ Compat.globals r !! "PANDAS_LT_300"
        = Some (Compat.VBool (py_lt (Compat.final_release [3; 1; 0]) Compat.V_3_0_0))
     /\ py_lt (Compat.final_release [3; 1; 0]) Compat.V_3_0_0
        = negb (py_ge (Compat.final_release [3; 1; 0]) Compat.V_3_0_0).
Proof.
  split; [vm_compute; reflexivity|].
  apply (flags_compare_with_thresholds (u "3.1.0")
           (Compat.final_release [3; 1; 0]) ∅).
  vm_compute; reflexivity.
Defined.

(** C3. [PANDAS_CURRENT_SUPPORTED_VERSION] is the version the string
    "2.2.3" parses to, whatever the installed pandas reports (even a string
    that does not parse, in which case the name is bound when the import
    fails): any two installed version strings give the same value. *)
Theorem current_supported_version_is_constant :
  version.parse (u "2.2.3") = Ok Compat.V_2_2_3
  /\ (forall (s : str) (g : gmap string Compat.object),
        Compat.globals (Compat.exec_module s g)
          !! "PANDAS_CURRENT_SUPPORTED_VERSION"
        = Some (Compat.VVersion Compat.V_2_2_3))
  /\ (forall (s1 s2 : str) (g1 g2 : gmap string Compat.object),
        Compat.globals (Compat.exec_module s1 g1)
          !! "PANDAS_CURRENT_SUPPORTED_VERSION"
        = Compat.globals (Compat.exec_module s2 g2)
          !! "PANDAS_CURRENT_SUPPORTED_VERSION").
Proof.
  assert (Hconst : forall (s : str) (g : gmap string Compat.object),
             Compat.globals (Compat.exec_module s g)
               !! "PANDAS_CURRENT_SUPPORTED_VERSION"
             = Some (Compat.VVersion Compat.V_2_2_3)).
  { intros s g. destruct (version.parse s) as [v|e] eqn:Hparse.
    - rewrite (exec_returns s v g Hparse). lookup_bound. reflexivity.
    - rewrite (exec_raises s e g Hparse). lookup_bound. reflexivity. }
  split; [apply parse_2_2_3|]. split; [exact Hconst|].
  intros s1 s2 g1 g2. now rewrite !Hconst.
Qed.

(** C4. When parsing the installed version string raises, the import
    raises that same exception, unchanged, and binds none of the three
    flags (each is left as it was in the namespace the body started with,
    unbound in a fresh one); when parsing returns, the import returns.  In
    both cases the outcome of the import is the outcome of the parse. *)
Theorem parse_failure_propagates (s : str) (g : gmap string Compat.object) :
  let r := Compat.exec_module s g in
  (forall e : exn, version.parse s = Raise e ->
     Compat.outcome r = Raise e
     /\ forall name : string, name ∈ Compat.flags ->
          Compat.globals r !! name = g !! name)
  /\ (forall v : version.Version, version.parse s = Ok v ->
        Compat.outcome r = Ok tt)
  /\ Compat.outcome r = (_ ← version.parse s; Ok tt).
Proof.
  intros r; subst r. split; [|split].
  - intros e Hparse. rewrite (exec_raises s e g Hparse). split; [reflexivity|].
    intros name Hname.
    assert (Hcases : name = "PANDAS_GE_210" \/ name = "PANDAS_GE_220"
                     \/ name = "PANDAS_LT_300")
      by (unfold Compat.flags in Hname;
          rewrite !elem_of_union, !elem_of_singleton in Hname; tauto).
    destruct Hcases as [-> | [-> | ->]]; lookup_bound; reflexivity.
  - intros v Hparse. now rewrite (exec_returns s v g Hparse).
  - destruct (version.parse s) as [v|e] eqn:Hparse.
    + now rewrite (exec_returns s v g Hparse).
    + now rewrite (exec_raises s e g Hparse).
Qed.

Lemma parse_failure_propagates_witness :
  version.parse (u "2.2.x") = Raise (InvalidVersion (u "2.2.x"))
  /\ Compat.outcome (Compat.exec_module (u "2.2.x") ∅)
     = Raise (InvalidVersion (u "2.2.x"))
  /\ Compat.globals (Compat.exec_module (u "2.2.x") ∅) !! "PANDAS_GE_210" = None
  /\ Compat.globals (Compat.exec_module (u "2.2.x") ∅) !! "PANDAS_GE_220" = None
  /\ Compat.globals (Compat.exec_module (u "2.2.x") ∅) !! "PANDAS_LT_300" = None
  /\ version.parse (u "2.2.3") = Ok Compat.V_2_2_3
  /\ Compat.outcome (Compat.exec_module (u "2.2.3") ∅) = Ok tt.
Proof.
  assert (Hbad : version.parse (u "2.2.x") = Raise (InvalidVersion (u "2.2.x")))
    by (vm_compute; reflexivity).
  destruct (parse_failure_propagates (u "2.2.x") ∅) as [Hraise _].
  destruct (Hraise _ Hbad) as [Hout Hflags].
  destruct (parse_failure_propagates (u "2.2.3") ∅) as [_ [Hreturn _]].
  split; [exact Hbad|]. split; [exact Hout|].
  split; [apply Hflags; unfold Compat.flags; set_solver|].
  split; [apply Hflags; unfold Compat.flags; set_solver|].
  split; [apply Hflags; unfold Compat.flags; set_solver|].
  split; [apply parse_2_2_3|].
  apply (Hreturn Compat.V_2_2_3). apply parse_2_2_3.
Defined.

(** C5. After a successful import, [PANDAS_GE_220 = True] implies
    [PANDAS_GE_210 = True]: the threshold 2.2.0 is [>=] the threshold 2.1.0
    and [>=] is transitive on versions. *)
Theorem ge_220_implies_ge_210 (s : str) (g : gmap string Compat.object) :
  let r := Compat.exec_module s g in
  Compat.outcome r = Ok tt ->
  Compat.globals r !! "PANDAS_GE_220" = Some (Compat.VBool true) ->
  Compat.globals r !! "PANDAS_GE_210" = Some (Compat.VBool true).
Proof.
  intros r Hok. subst r. destruct (exec_ok_inv s g Hok) as [v Hparse].
  rewrite (exec_returns s v g Hparse). lookup_bound.
  intros [= H220]. f_equal. f_equal.
  apply (key_ge_trans _ (version._key Compat.V_2_2_0) _ H220).
  vm_compute. reflexivity.
Qed.

Lemma ge_220_implies_ge_210_witness :
  let r := Compat.exec_module (u "2.2.1") ∅ in
  Compat.outcome r = Ok tt
  /\ Compat.globals r !! "PANDAS_GE_220" = Some (Compat.VBool true)
  /\ Compat.globals r !! "PANDAS_GE_210" = Some (Compat.VBool true).
Proof.
  assert (Hok : Compat.outcome (Compat.exec_module (u "2.2.1") ∅) = Ok tt)
    by (vm_compute; reflexivity).
  assert (H220 : Compat.globals (Compat.exec_module (u "2.2.1") ∅)
                   !! "PANDAS_GE_220" = Some (Compat.VBool true))
    by (vm_compute; reflexivity).
  split; [exact Hok|]. split; [exact H220|].
  exact (ge_220_implies_ge_210 (u "2.2.1") ∅ Hok H220).
Defined.

(** The key of a parsed version is the key of its pieces. *)
Lemma parse_key (s : str) (v : version.Version) :
  version.parse s = Ok v ->
  version._key v
  = version._cmpkey (version.epoch (version._version v))
      (version.release (version._version v))
      (version.pre (version._version v))
      (version.post (version._version v))
      (version.dev (version._version v))
      (version.local (version._version v)).
Proof.
  unfold version.parse, version.Version__init__.
  destruct (Re.search version._regex s) as [m|]; [|discriminate].
  repeat match goal with
         | |- context [mbind _ ?x] =>
             destruct x; unfold mbind at 1, result_bind at 1;
             cbv beta iota; [|discriminate]
         end.
  intros [= <-]. reflexivity.
Qed.

(** A pre-release or development release of 3.0.0 is below 3.0.0 and not
    below 2.2.0. *)
Lemma prerelease_of_300_between (v : version.Version) :
  version._key v
  = version._cmpkey (version.epoch (version._version v))
      (version.release (version._version v))
      (version.pre (version._version v))
      (version.post (version._version v))
      (version.dev (version._version v))
      (version.local (version._version v)) ->
  Compat.prerelease_of [3; 0; 0] v ->
  py_lt v Compat.V_3_0_0 = true /\ py_ge v Compat.V_2_2_0 = true.
Proof.
  intros Hkey (Hepoch & Hrelease & Hpost & Hpre).
  unfold py_lt, py_ge, version.Version_cmp. rewrite Hkey.
  unfold version._cmpkey. rewrite Hepoch, Hrelease, Hpost.
  destruct (version.pre (version._version v)) as [p|],
           (version.dev (version._version v)) as [d|];
    try (destruct Hpre; congruence);
    destruct (version.local (version._version v)); split; reflexivity.
Qed.

(** The names bound after a successful import. *)
Lemma dom_bound_at_end (s : str) (v : version.Version)
    (g : gmap string Compat.object) :
  dom (Compat.bound_at_end s v g)
  = Compat.constants ∪ {[ "version"; "pd" ]} ∪ dom g.
Proof.
  unfold Compat.bound_at_end, Compat.bound_after_import, Compat.constants.
  rewrite !dom_insert_L.
  apply set_eq. intros name.
  rewrite !elem_of_union, !elem_of_singleton. tauto.
Qed.

(** C6, as stated, fails: after a successful import the namespace also
    binds [pd] and [version], the two imported modules, under public
    names that are not among the five constants. *)
Lemma imported_modules_are_public :
  let r := Compat.exec_module (u "2.2.3") ∅ in
  Compat.outcome r = Ok tt
  /\ Compat.globals r !! "pd" = Some (Compat.VModule (Compat.pandas (u "2.2.3")))
  /\ "pd" ∈ Compat.public_names (Compat.globals r)
  /\ ("pd" ∉ Compat.constants)
  /\ Compat.public_names (Compat.globals r) <> Compat.constants.
Proof.
  assert (Hin : "pd" ∈ Compat.public_names
                  (Compat.globals (Compat.exec_module (u "2.2.3") ∅))).
  { rewrite (exec_returns _ _ ∅ parse_2_2_3).
    unfold Compat.public_names, Compat.globals. cbn [fst].
    apply elem_of_filter. split; [reflexivity|].
    rewrite dom_bound_at_end, !elem_of_union, !elem_of_singleton. tauto. }
  assert (Hout : "pd" ∉ Compat.constants).
  { unfold Compat.constants.
    rewrite !elem_of_union, !elem_of_singleton.
    intros [[[[H|H]|H]|H]|H]; discriminate H. }
  split; [vm_compute; reflexivity|].
  split; [vm_compute; reflexivity|].
  split; [exact Hin|]. split; [exact Hout|].
  intros Heq. apply Hout. rewrite <- Heq. exact Hin.
Qed.

(** C6, amended. After a successful import from a namespace with no public
    name (a fresh module namespace holds only names such as [__name__]),
    the public names of the module are exactly the five constants and the
    two names of its import statements, [version] and [pd].  The five
    constants hold two [Version] objects, the sentinel 2.2.3 and the
    installed version, and three booleans; [version] and [pd] hold the
    imported modules; every other name is as it was, so the body defines
    no function and nothing else. *)
Theorem public_names_after_import
    (s : str) (v : version.Version) (g : gmap string Compat.object) :
  version.parse s = Ok v ->
  (forall name : string, name ∈ dom g -> Compat.is_public name = false) ->
  let r := Compat.exec_module s g in
  Compat.public_names (Compat.globals r)
  = Compat.constants ∪ {[ "version"; "pd" ]}
  /\ Compat.globals r !! "PANDAS_CURRENT_SUPPORTED_VERSION"
     = Some (Compat.VVersion Compat.V_2_2_3)
  /\ Compat.globals r !! "PANDAS_VERSION" = Some (Compat.VVersion v)
  /\ (exists b1 b2 b3 : bool,
        Compat.globals r !! "PANDAS_GE_210" = Some (Compat.VBool b1)
        /\ Compat.globals r !! "PANDAS_GE_220" = Some (Compat.VBool b2)
        /\ Compat.globals r !! "PANDAS_LT_300" = Some (Compat.VBool b3))
  /\ Compat.globals r !! "version" = Some (Compat.VModule Compat.packaging_version)
  /\ Compat.globals r !! "pd" = Some (Compat.VModule (Compat.pandas s))
  /\ (forall name : string,
        name ∉ Compat.constants ∪ {[ "version"; "pd" ]} ->
        Compat.globals r !! name = g !! name).
Proof.
  intros Hparse Hprivate r. subst r. rewrite (exec_returns s v g Hparse).
  split; [|repeat split].
  - unfold Compat.public_names, Compat.globals. cbn [fst].
    rewrite dom_bound_at_end. apply set_eq. intros name.
    rewrite elem_of_filter, elem_of_union. split.
    + intros [Hpub [Hin|Hin]]; [exact Hin|].
      rewrite (Hprivate name Hin) in Hpub. discriminate.
    + intros Hin. split; [|now left].
      unfold Compat.constants in Hin.
      rewrite !elem_of_union, !elem_of_singleton in Hin.
      destruct Hin as [[[[[->| ->]| ->]| ->]| ->]|[->| ->]]; reflexivity.
  - lookup_bound. reflexivity.
  - lookup_bound. reflexivity.
  - exists (py_ge v Compat.V_2_1_0), (py_ge v Compat.V_2_2_0),
      (py_lt v Compat.V_3_0_0).
    repeat split; lookup_bound; reflexivity.
  - lookup_bound. reflexivity.
  - lookup_bound. reflexivity.
  - intros name Hname. unfold Compat.constants in Hname.
    rewrite !elem_of_union, !elem_of_singleton in Hname.
    unfold Compat.globals, Compat.bound_at_end, Compat.bound_after_import.
    cbn [fst]. rewrite !lookup_insert_ne; [reflexivity|..];
      intros <-; apply Hname; tauto.
Qed.

Lemma public_names_after_import_witness :
  let g : gmap string Compat.object :=
    {[ "__name__" := Compat.VStr (u "cudf.core._compat") ]} in
  let r := Compat.exec_module (u "2.2.3") g in
  version.parse (u "2.2.3") = Ok Compat.V_2_2_3
  /\ (forall name : string, name ∈ dom g -> Compat.is_public name = false)
  /\ Compat.public_names (Compat.globals r)
     = Compat.constants ∪ {[ "version"; "pd" ]}
  /\ Compat.globals r !! "__name__" = Some (Compat.VStr (u "cudf.core._compat")).
Proof.
  intros g r.
  assert (Hprivate : forall name : string,
             name ∈ dom g -> Compat.is_public name = false).
  { intros name. unfold g. rewrite dom_singleton_L, elem_of_singleton.
    intros ->. reflexivity. }
  destruct (public_names_after_import (u "2.2.3") Compat.V_2_2_3 g
              parse_2_2_3 Hprivate) as (Hnames & _ & _ & _ & _ & _ & Hframe).
  split; [apply parse_2_2_3|]. split; [exact Hprivate|].
  split; [exact Hnames|].
  unfold r. rewrite Hframe.
  - unfold g. apply lookup_singleton_eq.
  - unfold Compat.constants. rewrite !elem_of_union, !elem_of_singleton.
    intros [[[[[H|H]|H]|H]|H]|[H|H]]; discriminate H.
Defined.

(** C7. With a pre-release or a development release of 3.0.0 installed,
    such as the one "3.0.0.dev0" parses to, [PANDAS_LT_300] is [True] and
    [PANDAS_GE_220] is [True]: the key of such a version has the pre
    component of 3.0.0 lowered from [Infinity], and the release 3 above
    2.2. *)
Theorem prerelease_of_300_flags
    (s : str) (v : version.Version) (g : gmap string Compat.object) :
  version.parse s = Ok v ->
  Compat.prerelease_of [3; 0; 0] v ->
  let r := Compat.exec_module s g in
  Compat.globals r !! "PANDAS_LT_300" = Some (Compat.VBool true)
  /\ Compat.globals r !! "PANDAS_GE_220" = Some (Compat.VBool true).
Proof.
  intros Hparse Hpre r. subst r. rewrite (exec_returns s v g Hparse).
  destruct (prerelease_of_300_between v (parse_key s v Hparse) Hpre)
    as [Hlt Hge].
  split; lookup_bound; [rewrite Hlt | rewrite Hge]; reflexivity.
Qed.

Lemma prerelease_of_300_flags_witness :
  let v := {| version._version :=
                {| version.epoch := 0; version.release := [3; 0; 0];
                   version.dev := Some (u "dev", 0); version.pre := None;
                   version.post := None; version.local := None |};
              version._key :=
                (0, [3], version.NegativeInfinity, version.NegativeInfinity,
                 version.Val (u "dev", 0), version.NegativeInfinity) |} in
  let r := Compat.exec_module (u "3.0.0.dev0") ∅ in
  version.parse (u "3.0.0.dev0") = Ok v
  /\ Compat.prerelease_of [3; 0; 0] v
  /\ Compat.globals r !! "PANDAS_LT_300" = Some (Compat.VBool true)
  /\ Compat.globals r !! "PANDAS_GE_220" = Some (Compat.VBool true).
Proof.
  intros v r.
  assert (Hparse : version.parse (u "3.0.0.dev0") = Ok v)
    by (vm_compute; reflexivity).
  assert (Hpre : Compat.prerelease_of [3; 0; 0] v).
  { repeat split. right. discriminate. }
  split; [exact Hparse|]. split; [exact Hpre|].
  exact (prerelease_of_300_flags (u "3.0.0.dev0") v ∅ Hparse Hpre).
Defined.

(** C8. The outcome of the import and the five constants are a function of
    the installed version string: two evaluations with the same string,
    from namespaces that agree on the five names (two fresh namespaces do,
    whatever else they hold), end with the same outcome and the same five
    values. *)
Theorem constants_depend_on_version_string_only
    (s : str) (g1 g2 : gmap string Compat.object) :
  (forall name : string, name ∈ Compat.constants -> g1 !! name = g2 !! name) ->
  let r1 := Compat.exec_module s g1 in
  let r2 := Compat.exec_module s g2 in
  Compat.outcome r1 = Compat.outcome r2
  /\ forall name : string, name ∈ Compat.constants ->
       Compat.globals r1 !! name = Compat.globals r2 !! name.
Proof.
  intros Hagree r1 r2. subst r1 r2.
  destruct (version.parse s) as [v|e] eqn:Hparse.
  - rewrite (exec_returns s v g1 Hparse), (exec_returns s v g2 Hparse).
    split; [reflexivity|]. intros name Hname. unfold Compat.constants in Hname.
    rewrite !elem_of_union, !elem_of_singleton in Hname.
    destruct Hname as [[[[->| ->]| ->]| ->]| ->]; lookup_bound; reflexivity.
  - rewrite (exec_raises s e g1 Hparse), (exec_raises s e g2 Hparse).
    split; [reflexivity|]. intros name Hname.
    pose proof (Hagree name Hname) as Hsame.
    unfold Compat.constants in Hname.
    rewrite !elem_of_union, !elem_of_singleton in Hname.
    destruct Hname as [[[[->| ->]| ->]| ->]| ->]; lookup_bound;
      first [reflexivity | exact Hsame].
Qed.

Lemma constants_depend_on_version_string_only_witness :
  let g1 : gmap string Compat.object := ∅ in
  let g2 : gmap string Compat.object :=
    {[ "__name__" := Compat.VStr (u "cudf.core._compat") ]} in
  (forall name : string, name ∈ Compat.constants -> g1 !! name = g2 !! name)
  /\ Compat.outcome (Compat.exec_module (u "2.1.4") g1)
     = Compat.outcome (Compat.exec_module (u "2.1.4") g2)
  /\ forall name : string, name ∈ Compat.constants ->
       Compat.globals (Compat.exec_module (u "2.1.4") g1) !! name
       = Compat.globals (Compat.exec_module (u "2.1.4") g2) !! name.
Proof.
  intros g1 g2.
  assert (Hagree : forall name : string,
             name ∈ Compat.constants -> g1 !! name = g2 !! name).
  { intros name Hname. unfold Compat.constants in Hname.
    rewrite !elem_of_union, !elem_of_singleton in Hname.
    destruct Hname as [[[[->| ->]| ->]| ->]| ->]; reflexivity. }
  split; [exact Hagree|].
  exact (constants_depend_on_version_string_only (u "2.1.4") g1 g2 Hagree).
Defined.

(** C9. When the installed version equals (under [Version.__eq__])
    [PANDAS_CURRENT_SUPPORTED_VERSION], the version 2.2.3, the three flags
    [PANDAS_GE_210], [PANDAS_GE_220] and [PANDAS_LT_300] are all [True]. *)
Theorem supported_version_sets_all_flags
    (s : str) (v : version.Version) (g : gmap string Compat.object) :
  version.parse s = Ok v ->
  py_eq v Compat.V_2_2_3 = true ->
  let r := Compat.exec_module s g in
  Compat.globals r !! "PANDAS_CURRENT_SUPPORTED_VERSION"
  = Some (Compat.VVersion Compat.V_2_2_3)
  /\ Compat.globals r !! "PANDAS_GE_210" = Some (Compat.VBool true)
  /\ Compat.globals r !! "PANDAS_GE_220" = Some (Compat.VBool true)
  /\ Compat.globals r !! "PANDAS_LT_300" = Some (Compat.VBool true).
Proof.
  intros Hparse Heq r. subst r. rewrite (exec_returns s v g Hparse).
  apply key_eq_iff in Heq.
  assert (H210 : py_ge v Compat.V_2_1_0 = true)
    by (unfold py_ge, version.Version_cmp; rewrite Heq; reflexivity).
  assert (H220 : py_ge v Compat.V_2_2_0 = true)
    by (unfold py_ge, version.Version_cmp; rewrite Heq; reflexivity).
  assert (H300 : py_lt v Compat.V_3_0_0 = true)
    by (unfold py_lt, version.Version_cmp; rewrite Heq; reflexivity).
  repeat split; lookup_bound; rewrite ?H210, ?H220, ?H300; reflexivity.
Qed.

Lemma supported_version_sets_all_flags_witness :
  let v := Compat.final_release [2; 2; 3; 0] in
  let r := Compat.exec_module (u "v2.2.3.0") ∅ in
  version.parse (u "v2.2.3.0") = Ok v
  /\ py_eq v Compat.V_2_2_3 = true
  /\ Compat.globals r !! "PANDAS_CURRENT_SUPPORTED_VERSION"
     = Some (Compat.VVersion Compat.V_2_2_3)
  /\ Compat.globals r !! "PANDAS_GE_210" = Some (Compat.VBool true)
  /\ Compat.globals r !! "PANDAS_GE_220" = Some (Compat.VBool true)
  /\ Compat.globals r !! "PANDAS_LT_300" = Some (Compat.VBool true).
Proof.
  intros v r.
  assert (Hparse : version.parse (u "v2.2.3.0") = Ok v)
    by (vm_compute; reflexivity).
  assert (Heq : py_eq v Compat.V_2_2_3 = true) by (vm_compute; reflexivity).
  split; [exact Hparse|]. split; [exact Heq|].
  exact (supported_version_sets_all_flags (u "v2.2.3.0") v ∅ Hparse Heq).
Defined.

(** * Further properties of the probe *)

(** The key of a version that parsed, piece by piece. *)
Lemma parsed_key_unfold (s : str) (v : version.Version) :
  version.parse s = Ok v ->
  version._key v
  = (version.epoch (version._version v),
     rev (version.dropwhile (Z.eqb 0) (rev (version.release (version._version v)))),
     (if bool_decide (version.pre (version._version v) = None)
         && bool_decide (version.post (version._version v) = None)
         && negb (bool_decide (version.dev (version._version v) = None))
      then version.NegativeInfinity
      else match version.pre (version._version v) with
           | None => version.Infinity
           | Some p => version.Val p
           end),
     match version.post (version._version v) with
     | None => version.NegativeInfinity
     | Some p => version.Val p
     end,
     match version.dev (version._version v) with
     | None => version.Infinity
     | Some d => version.Val d
     end,
     match version.local (version._version v) with
     | None => version.NegativeInfinity
     | Some l =>
         version.Val (map (fun i => match i with
                                    | version.LInt i => (version.Val i, u "")
                                    | version.LStr i => (version.NegativeInfinity, i)
                                    end) l)
     end).
Proof. intros Hparse. rewrite (parse_key s v Hparse). reflexivity. Qed.

(** The thresholds are ordered, 2.1.0 <= 2.2.0 <= 3.0.0. *)
Lemma thresholds_ordered :
  py_ge Compat.V_2_2_0 Compat.V_2_1_0 = true
  /\ py_ge Compat.V_3_0_0 Compat.V_2_2_0 = true
  /\ py_ge Compat.V_3_0_0 Compat.V_2_1_0 = true.
Proof. repeat split; vm_compute; reflexivity. Qed.

Lemma version_ge_trans (a b c : version.Version) :
  py_ge a b = true -> py_ge b c = true -> py_ge a c = true.
Proof. apply (version_ge_total_preorder a b c). Qed.

Lemma version_lt_negb_ge (a b : version.Version) :
  py_lt a b = negb (py_ge a b).
Proof. apply (version_ge_total_preorder a b a). Qed.

(** The flags read off a successful import. *)
Lemma flags_of_returns (s : str) (v : version.Version)
    (g : gmap string Compat.object) :
  version.parse s = Ok v ->
  Probe.flags_of (Compat.exec_module s g)
  = (Some (py_ge v Compat.V_2_1_0), Some (py_ge v Compat.V_2_2_0),
     Some (py_lt v Compat.V_3_0_0)).
Proof.
  intros Hparse. rewrite (exec_returns s v g Hparse).
  unfold Probe.flags_of, Probe.flag. lookup_bound. reflexivity.
Qed.

(** X1. After a successful import the three flags take one of four
    combinations, the four bands the thresholds 2.1.0 <= 2.2.0 <= 3.0.0 cut
    the versions into; each is taken by some installed version. *)
Theorem flag_combinations :
  (forall (s : str) (g : gmap string Compat.object),
     Compat.outcome (Compat.exec_module s g) = Ok tt ->
     Probe.flags_of (Compat.exec_module s g)
     ∈ [ (Some false, Some false, Some true);
         (Some true, Some false, Some true);
         (Some true, Some true, Some true);
         (Some true, Some true, Some false) ])
  /\ Probe.flags_of (Compat.exec_module (u "2.0.3") ∅)
     = (Some false, Some false, Some true)
  /\ Probe.flags_of (Compat.exec_module (u "2.1.4") ∅)
     = (Some true, Some false, Some true)
  /\ Probe.flags_of (Compat.exec_module (u "2.2.3") ∅)
     = (Some true, Some true, Some true)
  /\ Probe.flags_of (Compat.exec_module (u "3.0.0") ∅)
     = (Some true, Some true, Some false).
Proof.
  split; [|repeat split; vm_compute; reflexivity].
  intros s g Hok. destruct (exec_ok_inv s g Hok) as [v Hparse].
  rewrite (flags_of_returns s v g Hparse), (version_lt_negb_ge v).
  destruct thresholds_ordered as (H21 & H32 & H31).
  destruct (py_ge v Compat.V_3_0_0) eqn:G300.
  - rewrite (version_ge_trans _ _ _ G300 H32), (version_ge_trans _ _ _ G300 H31).
    simpl. set_solver.
  - destruct (py_ge v Compat.V_2_2_0) eqn:G220.
    + rewrite (version_ge_trans _ _ _ G220 H21). simpl. set_solver.
    + destruct (py_ge v Compat.V_2_1_0); simpl; set_solver.
Qed.

Lemma flag_combinations_witness :
  Compat.outcome (Compat.exec_module (u "2.1.0rc1") ∅) = Ok tt
  /\ Probe.flags_of (Compat.exec_module (u "2.1.0rc1") ∅)
     ∈ [ (Some false, Some false, Some true);
         (Some true, Some false, Some true);
         (Some true, Some true, Some true);
         (Some true, Some true, Some false) ].
Proof.
  assert (Hok : Compat.outcome (Compat.exec_module (u "2.1.0rc1") ∅) = Ok tt)
    by (vm_compute; reflexivity).
  split; [exact Hok|].
  exact (proj1 flag_combinations (u "2.1.0rc1") ∅ Hok).
Defined.

(** X2. The flags are monotone in the installed version: when the import
    succeeds with an installed version and with a later one ([>=] on
    versions), every [GE] flag set with the earlier is set with the later,
    and [PANDAS_LT_300] set with the later is set with the earlier.  Two
    strings of equal versions, such as "2.2.3" and "v2.2.3.0", therefore
    give the same flags. *)
Theorem flags_monotone_in_installed_version
    (s1 s2 : str) (v1 v2 : version.Version) (g1 g2 : gmap string Compat.object) :
  version.parse s1 = Ok v1 ->
  version.parse s2 = Ok v2 ->
  py_ge v2 v1 = true ->
  let f1 := Probe.flags_of (Compat.exec_module s1 g1) in
  let f2 := Probe.flags_of (Compat.exec_module s2 g2) in
  (f1.1.1 = Some true -> f2.1.1 = Some true)
  /\ (f1.1.2 = Some true -> f2.1.2 = Some true)
  /\ (f2.2 = Some true -> f1.2 = Some true)
  /\ (py_eq v1 v2 = true -> f1 = f2).
Proof.
  intros Hp1 Hp2 Hge f1 f2. subst f1 f2.
  rewrite (flags_of_returns s1 v1 g1 Hp1), (flags_of_returns s2 v2 g2 Hp2).
  cbn [fst snd]. rewrite !version_lt_negb_ge. repeat split.
  - intros H. assert (H' : py_ge v1 Compat.V_2_1_0 = true) by congruence.
    now rewrite (version_ge_trans _ _ _ Hge H').
  - intros H. assert (H' : py_ge v1 Compat.V_2_2_0 = true) by congruence.
    now rewrite (version_ge_trans _ _ _ Hge H').
  - intros H. assert (H' : py_ge v2 Compat.V_3_0_0 = false)
      by (apply negb_true_iff; congruence).
    destruct (py_ge v1 Compat.V_3_0_0) eqn:G; [|reflexivity].
    rewrite (version_ge_trans _ _ _ Hge G) in H'. discriminate.
  - intros Heq. apply key_eq_iff in Heq.
    unfold py_ge, version.Version_cmp. now rewrite Heq.
Qed.

Lemma flags_monotone_in_installed_version_witness :
  let v1 := Compat.final_release [2; 1; 4] in
  let v2 := Compat.final_release [2; 10; 0] in
  let f1 := Probe.flags_of (Compat.exec_module (u "2.1.4") ∅) in
  let f2 := Probe.flags_of (Compat.exec_module (u "2.10.0") ∅) in
  version.parse (u "2.1.4") = Ok v1
  /\ version.parse (u "2.10.0") = Ok v2
  /\ py_ge v2 v1 = true
  /\ (f1.1.1 = Some true -> f2.1.1 = Some true)
  /\ (f1.1.2 = Some true -> f2.1.2 = Some true)
  /\ (f2.2 = Some true -> f1.2 = Some true)
  /\ (py_eq v1 v2 = true -> f1 = f2).
Proof.
  intros v1 v2 f1 f2.
  assert (Hp1 : version.parse (u "2.1.4") = Ok v1) by (vm_compute; reflexivity).
  assert (Hp2 : version.parse (u "2.10.0") = Ok v2) by (vm_compute; reflexivity).
  assert (Hge : py_ge v2 v1 = true) by (vm_compute; reflexivity).
  split; [exact Hp1|]. split; [exact Hp2|]. split; [exact Hge|].
  exact (flags_monotone_in_installed_version (u "2.1.4") (u "2.10.0") v1 v2
           ∅ ∅ Hp1 Hp2 Hge).
Defined.

(** Against the key of a final release without local segment, a local
    segment on the left never decides: the first five components do, or
    all five are equal and the version is not below. *)
Lemma local_segment_never_decides
    (e : Z) (r : list Z) (p q d : version.CmpPrePostDevType)
    (l1 l2 : version.CmpLocalType) (t : list Z) :
  let threshold : version.CmpKey :=
    (0, t, version.Infinity, version.NegativeInfinity, version.Infinity,
     version.NegativeInfinity) in
  py_ge ((e, r, p, q, d, l1) : version.CmpKey) threshold
  = py_ge ((e, r, p, q, d, l2) : version.CmpKey) threshold.
Proof.
  intros threshold. subst threshold.
  unfold py_ge, pair_cmp, pair_ge. cbn [fst snd].
  destruct (py_eq (e, r, p, q, d)
              (0, t, version.Infinity, version.NegativeInfinity,
               version.Infinity)); [|reflexivity].
  destruct l1, l2; reflexivity.
Qed.

(** X3. The local segment of the installed version (the part after [+],
    as in "2.2.3+cu12") never changes a flag: two installed versions that
    differ in their local segment only give the same three flags. *)
Theorem flags_ignore_local_segment
    (s1 s2 : str) (v1 v2 : version.Version) (g1 g2 : gmap string Compat.object) :
  version.parse s1 = Ok v1 ->
  version.parse s2 = Ok v2 ->
  Probe.same_public_version v1 v2 ->
  Probe.flags_of (Compat.exec_module s1 g1)
  = Probe.flags_of (Compat.exec_module s2 g2).
Proof.
  intros Hp1 Hp2 (He & Hr & Hpre & Hpost & Hdev).
  rewrite (flags_of_returns s1 v1 g1 Hp1), (flags_of_returns s2 v2 g2 Hp2).
  rewrite !version_lt_negb_ge.
  unfold py_ge, version.Version_cmp.
  rewrite (parsed_key_unfold s1 v1 Hp1), (parsed_key_unfold s2 v2 Hp2).
  rewrite He, Hr, Hpre, Hpost, Hdev.
  unfold Compat.V_2_1_0, Compat.V_2_2_0, Compat.V_3_0_0, Compat.final_release.
  cbn [version._key version._cmpkey bool_decide decide_rel rev app
       version.dropwhile Z.eqb negb andb].
  match goal with
  | |- (Some ?a1, Some ?b1, Some (negb ?c1))
       = (Some ?a2, Some ?b2, Some (negb ?c2)) =>
      assert (Ha : a1 = a2) by apply local_segment_never_decides;
      assert (Hb : b1 = b2) by apply local_segment_never_decides;
      assert (Hc : c1 = c2) by apply local_segment_never_decides
  end.
  now rewrite Ha, Hb, Hc.
Qed.

Lemma flags_ignore_local_segment_witness :
  exists v1 v2 : version.Version,
    version.parse (u "2.2.3") = Ok v1
    /\ version.parse (u "2.2.3+cu12.1") = Ok v2
    /\ Probe.same_public_version v1 v2
    /\ Probe.flags_of (Compat.exec_module (u "2.2.3") ∅)
       = Probe.flags_of (Compat.exec_module (u "2.2.3+cu12.1") ∅).
Proof.
  destruct (version.parse (u "2.2.3")) as [v1|] eqn:Hp1;
    [|vm_compute in Hp1; discriminate].
  destruct (version.parse (u "2.2.3+cu12.1")) as [v2|] eqn:Hp2;
    [|vm_compute in Hp2; discriminate].
  assert (Hsame : Probe.same_public_version v1 v2).
  { vm_compute in Hp1, Hp2. injection Hp1 as <-. injection Hp2 as <-.
    repeat split. }
  exists v1, v2. split; [reflexivity|]. split; [reflexivity|].
  split; [exact Hsame|].
  exact (flags_ignore_local_segment _ _ v1 v2 ∅ ∅ Hp1 Hp2 Hsame).
Defined.

(** Trailing zeros, read from the front of the release. *)
Lemma dropwhile_snoc {A} (p : A -> bool) (l : list A) (a : A) :
  version.dropwhile p (l ++ [a])
  = if forallb p l then (if p a then [] else [a])
    else version.dropwhile p l ++ [a].
Proof.
  induction l as [|x l IH]; simpl; [reflexivity|].
  destruct (p x); simpl; [exact IH | reflexivity].
Qed.

Lemma dropwhile_all {A} (p : A -> bool) (l : list A) :
  forallb p l = true -> version.dropwhile p l = [].
Proof.
  induction l as [|x l IH]; simpl; [reflexivity|].
  destruct (p x); simpl; [exact IH | discriminate].
Qed.

Lemma forallb_rev {A} (p : A -> bool) (l : list A) :
  forallb p (rev l) = forallb p l.
Proof.
  induction l as [|x l IH]; simpl; [reflexivity|].
  rewrite forallb_app, IH. simpl. rewrite andb_true_r. apply andb_comm.
Qed.

Lemma trim_cons (a : Z) (r : list Z) :
  Probe.trim (a :: r)
  = if (0 =? a) && forallb (Z.eqb 0) r then [] else a :: Probe.trim r.
Proof.
  unfold Probe.trim. simpl rev. rewrite dropwhile_snoc, forallb_rev.
  destruct (forallb (Z.eqb 0) r) eqn:Hall.
  - rewrite andb_true_r. destruct (0 =? a); [reflexivity|].
    rewrite dropwhile_all by now rewrite forallb_rev. reflexivity.
  - rewrite andb_false_r, rev_app_distr. reflexivity.
Qed.

(** Between two keys of final releases the release components decide. *)
Lemma final_keys_compare (r t : list Z) (l : version.CmpLocalType) :
  py_ge ((0, r, version.Infinity, version.NegativeInfinity,
          version.Infinity, l) : version.CmpKey)
        (0, t, version.Infinity, version.NegativeInfinity,
         version.Infinity, version.NegativeInfinity)
  = py_ge r t.
Proof.
  rewrite (local_segment_never_decides 0 r _ _ _ l version.NegativeInfinity t).
  unfold py_ge at 1, py_eq, pair_cmp, pair_ge, pair_eq. cbn.
  destruct (seq_eq r t) eqn:Heq; cbn; [|reflexivity].
  apply seq_eq_iff in Heq. subst t. symmetry. exact (py_ge_refl r).
Qed.

(** The release numbers against the three thresholds, by major and minor. *)
Lemma seq_ge_nil_r (x : list Z) : py_ge x [] = true.
Proof. destruct x; reflexivity. Qed.

Lemma seq_lt_nil_r (x : list Z) : py_lt x [] = false.
Proof. destruct x; reflexivity. Qed.

Lemma seq_ge_cons (a b : Z) (x y : list Z) :
  py_ge (a :: x) (b :: y) = if a =? b then py_ge x y else a >=? b.
Proof. reflexivity. Qed.

Lemma seq_lt_cons (a b : Z) (x y : list Z) :
  py_lt (a :: x) (b :: y) = if a =? b then py_lt x y else a <? b.
Proof. reflexivity. Qed.

Lemma trim_ge_1 (n : Z) (r : list Z) :
  0 < n -> py_ge (Probe.trim r) [n] = (n <=? nth 0 r 0).
Proof.
  intros Hn. destruct r as [|a r].
  - cbn [nth]. symmetry. apply Z.leb_gt. exact Hn.
  - rewrite trim_cons. cbn [nth].
    destruct ((0 =? a) && forallb (Z.eqb 0) r) eqn:Hzero.
    + apply andb_true_iff in Hzero as [Ha _]. apply Z.eqb_eq in Ha. subst a.
      symmetry. apply Z.leb_gt. exact Hn.
    + rewrite seq_ge_cons, seq_ge_nil_r.
      destruct (Z.eqb_spec a n) as [->|Hne].
      * symmetry. apply Z.leb_refl.
      * apply Z.geb_leb.
Qed.

Lemma trim_ge_2 (n : Z) (r : list Z) :
  0 < n ->
  py_ge (Probe.trim r) [2; n]
  = (2 <? nth 0 r 0) || (nth 0 r 0 =? 2) && (n <=? nth 1 r 0).
Proof.
  intros Hn. destruct r as [|a r]; [reflexivity|].
  rewrite trim_cons. cbn [nth].
  destruct ((0 =? a) && forallb (Z.eqb 0) r) eqn:Hzero.
  - apply andb_true_iff in Hzero as [Ha _]. apply Z.eqb_eq in Ha. subst a.
    reflexivity.
  - rewrite seq_ge_cons. destruct (Z.eqb_spec a 2) as [->|Hne].
    + rewrite (trim_ge_1 n r Hn). destruct r; reflexivity.
    + rewrite andb_false_l, orb_false_r, Z.geb_leb.
      destruct (Z.leb_spec 2 a), (Z.ltb_spec 2 a); try reflexivity; lia.
Qed.

Lemma trim_lt_3 (r : list Z) : py_lt (Probe.trim r) [3] = (nth 0 r 0 <? 3).
Proof.
  destruct r as [|a r]; [reflexivity|]. rewrite trim_cons. cbn [nth].
  destruct ((0 =? a) && forallb (Z.eqb 0) r) eqn:Hzero.
  - apply andb_true_iff in Hzero as [Ha _]. apply Z.eqb_eq in Ha. subst a.
    reflexivity.
  - rewrite seq_lt_cons, seq_lt_nil_r.
    destruct (Z.eqb_spec a 3) as [->|Hne]; reflexivity.
Qed.

(** The key of a final release that parsed. *)
Lemma final_key (s : str) (v : version.Version) :
  version.parse s = Ok v ->
  Probe.is_final v ->
  exists l : version.CmpLocalType,
    version._key v
    = (0, Probe.trim (version.release (version._version v)),
       version.Infinity, version.NegativeInfinity, version.Infinity, l).
Proof.
  intros Hparse (He & Hpre & Hpost & Hdev).
  rewrite (parsed_key_unfold s v Hparse), He, Hpre, Hpost, Hdev.
  eexists. reflexivity.
Qed.

(** X4. For an installed final release (no epoch, no pre, post or dev
    segment; a local segment is allowed) the flags are decided by the first
    two release numbers, compared as numbers: [PANDAS_GE_210] is
    [major.minor >= 2.1], [PANDAS_GE_220] is [major.minor >= 2.2] and
    [PANDAS_LT_300] is [major < 3], however many release numbers follow. *)
Theorem final_release_flags
    (s : str) (v : version.Version) (g : gmap string Compat.object) :
  version.parse s = Ok v ->
  Probe.is_final v ->
  Probe.flags_of (Compat.exec_module s g)
  = (Some ((2 <? Probe.major v) || (Probe.major v =? 2) && (1 <=? Probe.minor v)),
     Some ((2 <? Probe.major v) || (Probe.major v =? 2) && (2 <=? Probe.minor v)),
     Some (Probe.major v <? 3)).
Proof.
  intros Hparse Hfinal. rewrite (flags_of_returns s v g Hparse).
  destruct (final_key s v Hparse Hfinal) as [l Hkey].
  unfold py_ge at 1 2, py_lt at 1, version.Version_cmp. rewrite Hkey.
  rewrite key_lt_negb_ge.
  change (version._key Compat.V_2_1_0)
    with ((0, [2; 1], version.Infinity, version.NegativeInfinity,
           version.Infinity, version.NegativeInfinity) : version.CmpKey).
  change (version._key Compat.V_2_2_0)
    with ((0, [2; 2], version.Infinity, version.NegativeInfinity,
           version.Infinity, version.NegativeInfinity) : version.CmpKey).
  change (version._key Compat.V_3_0_0)
    with ((0, [3], version.Infinity, version.NegativeInfinity,
           version.Infinity, version.NegativeInfinity) : version.CmpKey).
  rewrite !final_keys_compare.
  rewrite <- (py_lt_negb_ge (Probe.trim _) [3]).
  rewrite !trim_ge_2 by lia. rewrite trim_lt_3. reflexivity.
Qed.

Lemma final_release_flags_witness :
  let v := Compat.final_release [2; 10] in
  version.parse (u "2.10") = Ok v
  /\ Probe.is_final v
  /\ Probe.flags_of (Compat.exec_module (u "2.10") ∅)
     = (Some true, Some true, Some true).
Proof.
  intros v.
  assert (Hparse : version.parse (u "2.10") = Ok v) by (vm_compute; reflexivity).
  assert (Hfinal : Probe.is_final v) by (repeat split).
  split; [exact Hparse|]. split; [exact Hfinal|].
  exact (final_release_flags (u "2.10") v ∅ Hparse Hfinal).
Defined.

(** Between keys with different epochs the epochs decide. *)
Lemma epoch_decides (e : Z) (r : list Z) (p q d : version.CmpPrePostDevType)
    (l : version.CmpLocalType) (t : list Z) :
  e <> 0 ->
  py_ge ((e, r, p, q, d, l) : version.CmpKey)
        (0, t, version.Infinity, version.NegativeInfinity,
         version.Infinity, version.NegativeInfinity)
  = (e >=? 0).
Proof.
  intros He. apply Z.eqb_neq in He.
  repeat (progress (unfold pair_ge, pair_eq; cbn -[Z.eqb Z.geb])).
  rewrite He. reflexivity.
Qed.

(** X5. An installed version with an epoch (as in "1!0.5") is above every
    threshold whatever its release numbers: both [GE] flags are [True] and
    [PANDAS_LT_300] is [False]. *)
Theorem epoch_sets_ge_flags
    (s : str) (v : version.Version) (g : gmap string Compat.object) :
  version.parse s = Ok v ->
  0 < version.epoch (version._version v) ->
  Probe.flags_of (Compat.exec_module s g)
  = (Some true, Some true, Some false).
Proof.
  intros Hparse He. rewrite (flags_of_returns s v g Hparse).
  rewrite version_lt_negb_ge.
  unfold py_ge, version.Version_cmp.
  rewrite (parsed_key_unfold s v Hparse).
  change (version._key Compat.V_2_1_0)
    with ((0, [2; 1], version.Infinity, version.NegativeInfinity,
           version.Infinity, version.NegativeInfinity) : version.CmpKey).
  change (version._key Compat.V_2_2_0)
    with ((0, [2; 2], version.Infinity, version.NegativeInfinity,
           version.Infinity, version.NegativeInfinity) : version.CmpKey).
  change (version._key Compat.V_3_0_0)
    with ((0, [3], version.Infinity, version.NegativeInfinity,
           version.Infinity, version.NegativeInfinity) : version.CmpKey).
  rewrite !epoch_decides by lia.
  replace (version.epoch (version._version v) >=? 0) with true
    by (symmetry; rewrite Z.geb_leb; apply Z.leb_le; lia).
  reflexivity.
Qed.

Lemma epoch_sets_ge_flags_witness :
  exists v : version.Version,
    version.parse (u "1!0.5") = Ok v
    /\ 0 < version.epoch (version._version v)
    /\ Probe.flags_of (Compat.exec_module (u "1!0.5") ∅)
       = (Some true, Some true, Some false).
Proof.
  destruct (version.parse (u "1!0.5")) as [v|] eqn:Hparse;
    [|vm_compute in Hparse; discriminate].
  assert (He : 0 < version.epoch (version._version v)).
  { vm_compute in Hparse. injection Hparse as <-. reflexivity. }
  exists v. split; [reflexivity|]. split; [exact He|].
  exact (epoch_sets_ge_flags (u "1!0.5") v ∅ Hparse He).
Defined.

(** X6. A pre-release or development release of a threshold is below it:
    with a pre-release of 2.2.0 installed (as "2.2.0rc1") [PANDAS_GE_220]
    is [False] while [PANDAS_GE_210] and [PANDAS_LT_300] are [True], and
    with a pre-release of 2.1.0 installed (as "2.1.0.dev0") both [GE] flags
    are [False]. *)
Theorem prerelease_of_threshold_is_below
    (s : str) (v : version.Version) (g : gmap string Compat.object) :
  version.parse s = Ok v ->
  (Compat.prerelease_of [2; 2; 0] v ->
   Probe.flags_of (Compat.exec_module s g)
   = (Some true, Some false, Some true))
  /\ (Compat.prerelease_of [2; 1; 0] v ->
      Probe.flags_of (Compat.exec_module s g)
      = (Some false, Some false, Some true)).
Proof.
  intros Hparse. rewrite (flags_of_returns s v g Hparse).
  unfold py_lt, py_ge, version.Version_cmp.
  rewrite (parsed_key_unfold s v Hparse).
  split; intros (Hepoch & Hrelease & Hpost & Hpre);
    unfold Compat.same_release in Hrelease;
    rewrite Hepoch, Hrelease, Hpost;
    destruct (version.pre (version._version v)) as [p|],
             (version.dev (version._version v)) as [d|];
    try (destruct Hpre; congruence);
    destruct (version.local (version._version v)); reflexivity.
Qed.

Lemma prerelease_of_threshold_is_below_witness :
  exists v : version.Version,
    version.parse (u "2.2.0rc1") = Ok v
    /\ Compat.prerelease_of [2; 2; 0] v
    /\ Probe.flags_of (Compat.exec_module (u "2.2.0rc1") ∅)
       = (Some true, Some false, Some true).
Proof.
  destruct (version.parse (u "2.2.0rc1")) as [v|] eqn:Hparse;
    [|vm_compute in Hparse; discriminate].
  assert (Hpre : Compat.prerelease_of [2; 2; 0] v).
  { vm_compute in Hparse. injection Hparse as <-.
    repeat split. left. discriminate. }
  exists v. split; [reflexivity|]. split; [exact Hpre|].
  exact (proj1 (prerelease_of_threshold_is_below (u "2.2.0rc1") v ∅ Hparse) Hpre).
Defined.

(** X7. A post-release of 3.0.0, or a development release of one (as
    "3.0.0.post1.dev0"), is not below 3.0.0: [PANDAS_LT_300] is [False] and
    both [GE] flags are [True]. *)
Theorem postrelease_of_300_is_not_below
    (s : str) (v : version.Version) (g : gmap string Compat.object) :
  version.parse s = Ok v ->
  Probe.postrelease_of [3; 0; 0] v ->
  Probe.flags_of (Compat.exec_module s g)
  = (Some true, Some true, Some false).
Proof.
  intros Hparse (Hepoch & Hrelease & Hpre & Hpost).
  rewrite (flags_of_returns s v g Hparse).
  unfold py_lt, py_ge, version.Version_cmp.
  rewrite (parsed_key_unfold s v Hparse).
  unfold Compat.same_release in Hrelease. rewrite Hepoch, Hrelease, Hpre.
  destruct (version.post (version._version v)) as [q|]; [|congruence].
  destruct (version.dev (version._version v)) as [d|];
    destruct (version.local (version._version v)); reflexivity.
Qed.

Lemma postrelease_of_300_is_not_below_witness :
  exists v : version.Version,
    version.parse (u "3.0.0.post1.dev0") = Ok v
    /\ Probe.postrelease_of [3; 0; 0] v
    /\ Probe.flags_of (Compat.exec_module (u "3.0.0.post1.dev0") ∅)
       = (Some true, Some true, Some false).
Proof.
  destruct (version.parse (u "3.0.0.post1.dev0")) as [v|] eqn:Hparse;
    [|vm_compute in Hparse; discriminate].
  assert (Hpost : Probe.postrelease_of [3; 0; 0] v).
  { vm_compute in Hparse. injection Hparse as <-.
    repeat split. discriminate. }
  exists v. split; [reflexivity|]. split; [exact Hpost|].
  exact (postrelease_of_300_is_not_below (u "3.0.0.post1.dev0") v ∅ Hparse Hpost).
Defined.

Ltac by_name i k :=
  destruct (decide (i = k)) as [->|?];
  [ repeat first [ rewrite lookup_insert_eq | rewrite lookup_insert_ne by done ];
    reflexivity
  | idtac ].

Ltac by_bound_names i :=
  by_name i "PANDAS_LT_300"%string; by_name i "PANDAS_GE_220"%string;
  by_name i "PANDAS_GE_210"%string; by_name i "PANDAS_VERSION"%string;
  by_name i "PANDAS_CURRENT_SUPPORTED_VERSION"%string;
  by_name i "pd"%string; by_name i "version"%string.

(** A successful run binds all seven names, whatever was bound before. *)
Lemma bound_at_end_absorbs (s : str) (v : version.Version)
    (g g' : gmap string Compat.object) :
  (forall name : string, name ∉ Probe.bound_names -> g' !! name = g !! name) ->
  Compat.bound_at_end s v g' = Compat.bound_at_end s v g.
Proof.
  intros Hframe. apply map_eq. intros i.
  unfold Compat.bound_at_end, Compat.bound_after_import.
  by_bound_names i.
  rewrite !lookup_insert_ne by done. apply Hframe.
  unfold Probe.bound_names, Compat.constants.
  rewrite !elem_of_union, !elem_of_singleton. intuition congruence.
Qed.

(** Names outside the seven are not touched. *)
Lemma exec_frame (s : str) (g : gmap string Compat.object) (name : string) :
  name ∉ Probe.bound_names ->
  Compat.globals (Compat.exec_module s g) !! name = g !! name.
Proof.
  intros Hname. unfold Probe.bound_names, Compat.constants in Hname.
  rewrite !elem_of_union, !elem_of_singleton in Hname.
  destruct (version.parse s) as [v|e] eqn:Hparse.
  - rewrite (exec_returns s v g Hparse).
    unfold Compat.globals, Compat.bound_at_end, Compat.bound_after_import.
    cbn [fst]. rewrite !lookup_insert_ne; [reflexivity|..];
      intros <-; apply Hname; tauto.
  - rewrite (exec_raises s e g Hparse).
    unfold Compat.globals, Compat.bound_after_import.
    cbn [fst]. rewrite !lookup_insert_ne; [reflexivity|..];
      intros <-; apply Hname; tauto.
Qed.

(** X8. The body touches no name but the seven it binds and unbinds none:
    after an import, successful or not, every other name of the namespace
    holds what it held, and every name bound before is still bound. *)
Theorem import_frame (s : str) (g : gmap string Compat.object) :
  let r := Compat.exec_module s g in
  (forall name : string,
     name ∉ Probe.bound_names -> Compat.globals r !! name = g !! name)
  /\ (forall name : string,
        is_Some (g !! name) -> is_Some (Compat.globals r !! name)).
Proof.
  intros r. subst r. split; [apply exec_frame|].
  intros name Hbound.
  destruct (decide (name ∈ Probe.bound_names)) as [Hin|Hout];
    [|now rewrite (exec_frame s g name Hout)].
  unfold Probe.bound_names, Compat.constants in Hin.
  rewrite !elem_of_union, !elem_of_singleton in Hin.
  destruct (version.parse s) as [v|e] eqn:Hparse.
  - rewrite (exec_returns s v g Hparse).
    destruct Hin as [[[[[->| ->]| ->]| ->]| ->]|[->| ->]];
      lookup_bound; eauto.
  - rewrite (exec_raises s e g Hparse).
    destruct Hin as [[[[[->| ->]| ->]| ->]| ->]|[->| ->]];
      lookup_bound; eauto.
Qed.

Lemma import_frame_witness :
  let g : gmap string Compat.object :=
    {[ "__name__" := Compat.VStr (u "cudf.core._compat") ]} in
  ("__name__" ∉ Probe.bound_names)
  /\ Compat.globals (Compat.exec_module (u "not a version") g) !! "__name__"
     = Some (Compat.VStr (u "cudf.core._compat")).
Proof.
  intros g.
  assert (Hout : "__name__" ∉ Probe.bound_names).
  { unfold Probe.bound_names, Compat.constants.
    rewrite !elem_of_union, !elem_of_singleton.
    intros [[[[[H|H]|H]|H]|H]|[H|H]]; discriminate H. }
  split; [exact Hout|].
  rewrite (proj1 (import_frame (u "not a version") g) "__name__" Hout).
  apply lookup_singleton_eq.
Defined.

(** X9. Re-running the body in the namespace an earlier run left (a
    reload), with an installed version that parses, gives exactly what a
    first import with that version gives: nothing of the earlier run
    survives, whether it succeeded or raised, and running twice with the
    same version equals running once. *)
Theorem reload_overrides
    (s1 s2 : str) (v2 : version.Version) (g : gmap string Compat.object) :
  version.parse s2 = Ok v2 ->
  Compat.exec_module s2 (Compat.globals (Compat.exec_module s1 g))
  = Compat.exec_module s2 g.
Proof.
  intros Hp2. rewrite !(exec_returns s2 v2 _ Hp2). f_equal.
  apply bound_at_end_absorbs. apply (exec_frame s1 g).
Qed.

Lemma reload_overrides_witness :
  version.parse (u "2.2.3") = Ok Compat.V_2_2_3
  /\ Compat.exec_module (u "2.2.3")
       (Compat.globals (Compat.exec_module (u "3.0.0") ∅))
     = Compat.exec_module (u "2.2.3") ∅.
Proof.
  split; [apply parse_2_2_3|].
  exact (reload_overrides (u "3.0.0") (u "2.2.3") Compat.V_2_2_3 ∅ parse_2_2_3).
Defined.

(** X10. A reload that fails keeps the earlier run's values: when the body
    is re-run with an installed version that does not parse, in the
    namespace a successful run left, it raises, [pd] holds the new pandas,
    and [PANDAS_VERSION] and the three flags are still those of the earlier
    version. *)
Theorem failed_reload_keeps_earlier_flags
    (s1 s2 : str) (v1 : version.Version) (e : exn)
    (g : gmap string Compat.object) :
  version.parse s1 = Ok v1 ->
  version.parse s2 = Raise e ->
  let r1 := Compat.exec_module s1 g in
  let r2 := Compat.exec_module s2 (Compat.globals r1) in
  Compat.outcome r2 = Raise e
  /\ Compat.globals r2 !! "pd" = Some (Compat.VModule (Compat.pandas s2))
  /\ Compat.globals r2 !! "PANDAS_VERSION" = Some (Compat.VVersion v1)
  /\ Probe.flags_of r2 = Probe.flags_of r1.
Proof.
  intros Hp1 Hp2 r1 r2. subst r1 r2.
  rewrite (exec_raises s2 e _ Hp2), (exec_returns s1 v1 g Hp1).
  unfold Probe.flags_of, Probe.flag.
  repeat split; lookup_bound; reflexivity.
Qed.

Lemma failed_reload_keeps_earlier_flags_witness :
  let r1 := Compat.exec_module (u "2.2.3") ∅ in
  let r2 := Compat.exec_module (u "unknown") (Compat.globals r1) in
  version.parse (u "2.2.3") = Ok Compat.V_2_2_3
  /\ version.parse (u "unknown") = Raise (InvalidVersion (u "unknown"))
  /\ Compat.outcome r2 = Raise (InvalidVersion (u "unknown"))
  /\ Compat.globals r2 !! "pd" = Some (Compat.VModule (Compat.pandas (u "unknown")))
  /\ Compat.globals r2 !! "PANDAS_VERSION" = Some (Compat.VVersion Compat.V_2_2_3)
  /\ Probe.flags_of r2 = Probe.flags_of r1.
Proof.
  intros r1 r2.
  assert (Hp2 : version.parse (u "unknown") = Raise (InvalidVersion (u "unknown")))
    by (vm_compute; reflexivity).
  split; [apply parse_2_2_3|]. split; [exact Hp2|].
  exact (failed_reload_keeps_earlier_flags (u "2.2.3") (u "unknown")
           Compat.V_2_2_3 _ ∅ parse_2_2_3 Hp2).
Defined.

(** ** The matcher and the words of a pattern *)

Ltac six_goals := split; [|split; [|split; [|split; [|split]]]].

(** The matcher went on without consuming: the word is empty. *)
Ltac stay_at st :=
  exists st, (@nil N); six_goals;
  [ assumption
  | idtac
  | reflexivity
  | simpl; lia
  | assumption
  | let H := fresh "H" in
    intros ? [H|H]; [exact H | discriminate H] ].

Lemma rmatch_sound {R : Type} (D : string -> list N -> Prop) (r : Re.regex) :
  Words.respects D r ->
  forall (st : Re.mstate) (k : Re.mstate -> option R) (m : R),
    Words.ok_groups D (Re.groups st) ->
    Re.rmatch r st k = Some m ->
    exists (st' : Re.mstate) (w : list N),
      k st' = Some m
      /\ Words.Lang r w
      /\ Re.rest st = w ++ Re.rest st'
      /\ Re.pos st' = (Re.pos st + length w)%nat
      /\ Words.ok_groups D (Re.groups st')
      /\ (forall name : string,
            is_Some (Re.groups st !! name) \/ Words.sets r name = true ->
            is_Some (Re.groups st' !! name)).
Proof.
  induction r as [|p|r1 IH1 r2 IH2|r1 IH1 r2 IH2|r1 IH1|r1 IH1|name r1 IH1| |];
    intros Hres st k m Hok Hm; simpl in Hm.
  - (* Eps *)
    stay_at st; constructor.
  - (* Chr *)
    destruct (Re.rest st) as [|c cs] eqn:Hrest; [discriminate|].
    destruct (p c) eqn:Hp; [|discriminate].
    eexists _, [c]. cbn [Re.rest Re.pos Re.groups]. six_goals.
    + exact Hm.
    + now constructor.
    + reflexivity.
    + simpl. lia.
    + exact Hok.
    + intros name [H|H]; [exact H | discriminate].
  - (* Seq *)
    destruct Hres as [Hres1 Hres2].
    destruct (IH1 Hres1 _ _ _ Hok Hm) as (st1 & w1 & Hk1 & L1 & E1 & P1 & G1 & S1).
    destruct (IH2 Hres2 _ _ _ G1 Hk1) as (st2 & w2 & Hk2 & L2 & E2 & P2 & G2 & S2).
    exists st2, (w1 ++ w2). six_goals.
    + exact Hk2.
    + now constructor.
    + rewrite E1, E2. now rewrite app_assoc.
    + rewrite P2, P1, length_app. lia.
    + exact G2.
    + intros name [H|H].
      * apply S2. left. apply S1. now left.
      * simpl in H. apply orb_true_iff in H as [H|H].
        -- apply S2. left. apply S1. now right.
        -- apply S2. now right.
  - (* Alt *)
    destruct Hres as [Hres1 Hres2].
    destruct (Re.rmatch r1 st k) as [m1|] eqn:Hm1.
    + injection Hm as <-.
      destruct (IH1 Hres1 _ _ _ Hok Hm1) as (st1 & w1 & Hk1 & L1 & E1 & P1 & G1 & S1).
      exists st1, w1. six_goals; try assumption.
      * now apply Words.lang_alt_l.
      * intros name [H|H]; apply S1; [now left|].
        simpl in H. apply andb_true_iff in H as [H _]. now right.
    + destruct (IH2 Hres2 _ _ _ Hok Hm) as (st2 & w2 & Hk2 & L2 & E2 & P2 & G2 & S2).
      exists st2, w2. six_goals; try assumption.
      * now apply Words.lang_alt_r.
      * intros name [H|H]; apply S2; [now left|].
        simpl in H. apply andb_true_iff in H as [_ H]. now right.
  - (* Opt *)
    simpl in Hres.
    destruct (Re.rmatch r1 st k) as [m1|] eqn:Hm1.
    + injection Hm as <-.
      destruct (IH1 Hres _ _ _ Hok Hm1) as (st1 & w1 & Hk1 & L1 & E1 & P1 & G1 & S1).
      exists st1, w1. six_goals; try assumption.
      * now apply Words.lang_opt_some.
      * intros name [H|H]; [|discriminate]. apply S1. now left.
    + stay_at st; apply Words.lang_opt_none.
  - (* Star *)
    simpl in Hres. revert Hm. generalize (length (Re.rest st)) as fuel.
    intros fuel. revert st Hok.
    induction fuel as [|fuel IHfuel]; intros st Hok Hm.
    + stay_at st; apply Words.lang_star_nil.
    + match type of Hm with
      | match Re.rmatch r1 st ?again with _ => _ end = _ =>
          destruct (Re.rmatch r1 st again) as [m1|] eqn:Hm1
      end.
      * injection Hm as <-.
        destruct (IH1 Hres _ _ _ Hok Hm1)
          as (st1 & w1 & Hk1 & L1 & E1 & P1 & G1 & S1).
        cbv beta in Hk1.
        destruct (Re.pos st <? Re.pos st1)%nat; [|discriminate].
        destruct (IHfuel st1 G1 Hk1)
          as (st2 & w2 & Hk2 & L2 & E2 & P2 & G2 & S2).
        exists st2, (w1 ++ w2). six_goals.
        -- exact Hk2.
        -- now apply Words.lang_star_step.
        -- rewrite E1, E2. now rewrite app_assoc.
        -- rewrite P2, P1, length_app. lia.
        -- exact G2.
        -- intros name [H|H]; [|discriminate].
           apply S2. left. apply S1. now left.
      * stay_at st; apply Words.lang_star_nil.
  - (* Group *)
    destruct Hres as [Hres1 Hname].
    destruct (IH1 Hres1 _ _ _ Hok Hm) as (st1 & w & Hk1 & L1 & E1 & P1 & G1 & S1).
    cbv zeta in Hk1.
    assert (Htext : take (Re.pos st1 - Re.pos st) (Re.rest st) = w).
    { rewrite E1, P1. replace (Re.pos st + length w - Re.pos st)%nat
        with (length w) by lia.
      rewrite take_app_le by lia. apply take_ge. lia. }
    rewrite Htext in Hk1.
    exists {| Re.pos := Re.pos st1; Re.rest := Re.rest st1;
              Re.groups := <[name := w]> (Re.groups st1) |}, w.
    cbn [Re.rest Re.pos Re.groups]. six_goals.
    + exact Hk1.
    + now constructor.
    + exact E1.
    + exact P1.
    + intros n t. destruct (decide (name = n)) as [<-|Hne].
      * rewrite lookup_insert_eq. intros [= <-]. now apply Hname.
      * rewrite lookup_insert_ne by assumption. apply G1.
    + intros n HS. destruct (decide (name = n)) as [<-|Hne].
      * rewrite lookup_insert_eq. eauto.
      * rewrite lookup_insert_ne by assumption. apply S1.
        destruct HS as [H|H]; [now left|]. right.
        simpl in H. apply orb_true_iff in H as [H|H]; [|exact H].
        apply String.eqb_eq in H. contradiction.
  - (* Bol *)
    destruct (Re.pos st =? 0)%nat; [|discriminate].
    stay_at st; constructor.
  - (* Eol *)
    assert (Hk : k st = Some m).
    { destruct (Re.rest st) as [|c [|c' cs]]; try discriminate; [exact Hm|].
      destruct (c =? 10)%N; [exact Hm | discriminate]. }
    stay_at st; constructor.
Qed.

(** ** The words of the version pattern *)

Lemma range_digit (c : N) :
  Re.range 48 57 c = true -> version.is_ascii_digit c = true.
Proof.
  unfold Re.range, Re.sre_lower, version.is_ascii_digit.
  change (existsb _ [105%N; 115%N]) with false. rewrite orb_false_r.
  destruct ((65 <=? c) && (c <=? 90))%N eqn:Hupper.
  - apply andb_true_iff in Hupper as [H1 H2].
    apply N.leb_le in H1, H2. intros H.
    apply andb_true_iff in H as [_ H]. apply N.leb_le in H. lia.
  - destruct (c =? 304)%N; [discriminate|].
    destruct (c =? 8490)%N; [discriminate|]. trivial.
Qed.

Lemma lang_star_class (p : N -> bool) (w : list N) :
  Words.Lang (Re.Star (Re.Chr p)) w -> forallb p w = true.
Proof.
  intros HL. remember (Re.Star (Re.Chr p)) as r eqn:Hr.
  induction HL; try discriminate; [reflexivity|].
  injection Hr as ->. inversion HL1; subst. simpl.
  rewrite IHHL2 by reflexivity. now rewrite andb_true_r.
Qed.

Lemma lang_plus_class (p : N -> bool) (w : list N) :
  Words.Lang (Re.Plus (Re.Chr p)) w ->
  exists (c : N) (w' : list N), w = c :: w' /\ p c = true /\ forallb p w' = true.
Proof.
  unfold Re.Plus. intros HL. inversion HL as [| |? ? w1 w2 H1 H2| | | | | | | | |]; subst.
  inversion H1; subst. exists c, w2. repeat split; [assumption|].
  now apply lang_star_class.
Qed.

Lemma forallb_digit (w : list N) :
  forallb (Re.range 48 57) w = true -> forallb version.is_ascii_digit w = true.
Proof.
  induction w as [|c w IH]; simpl; [reflexivity|].
  intros H. apply andb_true_iff in H as [Hc Hw].
  now rewrite (range_digit c Hc), IH.
Qed.

Lemma lang_digits (w : list N) :
  Words.Lang version.digits w -> version.isdigit w = true.
Proof.
  intros HL. destruct (lang_plus_class _ _ HL) as (c & w' & -> & Hc & Hw).
  unfold version.isdigit. simpl.
  now rewrite (range_digit c Hc), (forallb_digit w' Hw).
Qed.

Lemma lang_seq_inv (r1 r2 : Re.regex) (w : list N) :
  Words.Lang (Re.Seq r1 r2) w ->
  exists w1 w2 : list N, w = w1 ++ w2 /\ Words.Lang r1 w1 /\ Words.Lang r2 w2.
Proof. intros HL. inversion HL; subst. eauto. Qed.

Lemma lang_eps_inv (w : list N) : Words.Lang Re.Eps w -> w = [].
Proof. intros HL. now inversion HL. Qed.

Lemma lang_chr_inv (p : N -> bool) (w : list N) :
  Words.Lang (Re.Chr p) w -> exists c : N, w = [c] /\ p c = true.
Proof. intros HL. inversion HL; subst. eauto. Qed.

Lemma lang_group_inv (name : string) (r : Re.regex) (w : list N) :
  Words.Lang (Re.Group name r) w -> Words.Lang r w.
Proof. intros HL. now inversion HL. Qed.

Lemma literal_dot (c : N) : Re.literal 46 c = true -> c = 46%N.
Proof.
  unfold Re.literal, Re.sre_lower.
  change (existsb _ (Re.fixes 46)) with false. rewrite orb_false_r.
  destruct ((65 <=? c) && (c <=? 90))%N eqn:Hupper.
  - apply andb_true_iff in Hupper as [H1 H2].
    apply N.leb_le in H1, H2. intros H. apply N.eqb_eq in H. lia.
  - destruct (c =? 304)%N; [discriminate|].
    destruct (c =? 8490)%N; [discriminate|]. apply N.eqb_eq.
Qed.

Lemma isdigit_forallb (d : list N) :
  version.isdigit d = true -> forallb version.is_ascii_digit d = true.
Proof. destruct d; [discriminate | trivial]. Qed.

Lemma digit_not_dot (c : N) :
  version.is_ascii_digit c = true -> (46 =? c)%N = false.
Proof.
  unfold version.is_ascii_digit. intros H.
  apply andb_true_iff in H as [H _]. apply N.leb_le in H.
  apply N.eqb_neq. lia.
Qed.

Lemma split_digit_run (d : list N) :
  forallb version.is_ascii_digit d = true -> Re.split (N.eqb 46) d = [d].
Proof.
  induction d as [|c d IH]; cbn [Re.split forallb]; [reflexivity|].
  intros H. apply andb_true_iff in H as [Hc Hd].
  now rewrite (digit_not_dot c Hc), (IH Hd).
Qed.

Lemma split_digit_run_dot (d w : list N) :
  forallb version.is_ascii_digit d = true ->
  Re.split (N.eqb 46) (d ++ 46%N :: w) = d :: Re.split (N.eqb 46) w.
Proof.
  induction d as [|c d IH]; cbn [Re.split forallb app]; [reflexivity|].
  intros H. apply andb_true_iff in H as [Hc Hd].
  now rewrite (digit_not_dot c Hc), (IH Hd).
Qed.

Lemma lang_dot_digits (w : list N) :
  Words.Lang (Re.seq [Re.lit "."; version.digits]) w ->
  exists d : list N, w = 46%N :: d /\ version.isdigit d = true.
Proof.
  intros HL. cbn [Re.seq foldr] in HL.
  apply lang_seq_inv in HL as (w1 & w2 & -> & H1 & H2).
  apply lang_seq_inv in H2 as (d & w3 & -> & Hd & H3).
  apply lang_eps_inv in H3 as ->.
  change (Re.lit ".") with (Re.Seq (Re.Chr (Re.literal 46)) Re.Eps) in H1.
  apply lang_seq_inv in H1 as (w4 & w5 & -> & H4 & H5).
  apply lang_eps_inv in H5 as ->.
  apply lang_chr_inv in H4 as (c & -> & Hc). apply literal_dot in Hc as ->.
  exists d. split; [cbn [app]; now rewrite app_nil_r | now apply lang_digits].
Qed.

Lemma lang_star_dot_digits (w : list N) :
  Words.Lang (Re.Star (Re.seq [Re.lit "."; version.digits])) w ->
  forall d : list N, version.isdigit d = true ->
    Forall (fun part => version.isdigit part = true)
           (Re.split (N.eqb 46) (d ++ w)).
Proof.
  intros HL.
  remember (Re.Star (Re.seq [Re.lit "."; version.digits])) as r eqn:Hr.
  induction HL; try discriminate.
  - intros d Hd. rewrite app_nil_r, split_digit_run by now apply isdigit_forallb.
    now constructor.
  - injection Hr as ->. intros d Hd.
    destruct (lang_dot_digits _ HL1) as (d1 & -> & Hd1).
    cbn [app]. rewrite split_digit_run_dot by now apply isdigit_forallb.
    constructor; [exact Hd|]. now apply IHHL2.
Qed.

Lemma lang_release (w : list N) :
  Words.Lang
    (Re.seq [version.digits;
             Re.Star (Re.seq [Re.lit "."; version.digits])]) w ->
  Forall (fun part => version.isdigit part = true) (Re.split (N.eqb 46) w).
Proof.
  intros HL. cbn [Re.seq foldr] in HL.
  apply lang_seq_inv in HL as (d & w2 & -> & Hd & H2).
  apply lang_seq_inv in H2 as (w3 & w4 & -> & H3 & H4).
  apply lang_eps_inv in H4 as ->. rewrite app_nil_r.
  apply lang_star_dot_digits; [exact H3|]. now apply lang_digits.
Qed.

(** The version pattern keeps the discipline of its groups and always sets
    the release group. *)
Lemma regex_respects_groups : Words.respects Words.version_groups version._regex.
Proof.
  unfold version._regex, version.VERSION_PATTERN, version.alnum, Re.Plus.
  cbn [Re.seq Re.alt foldr foldl Words.respects].
  repeat split; try exact I;
    try (intros Hin; unfold Words.numeric_groups in Hin;
         repeat (apply elem_of_cons in Hin as [Hin|Hin]; [discriminate Hin|]);
         now apply elem_of_nil in Hin);
    try discriminate;
    try (intros _; now apply lang_digits);
    try (intros _; now apply lang_release).
Qed.

Lemma regex_sets_release : Words.sets version._regex "release" = true.
Proof. reflexivity. Qed.

Lemma ok_groups_empty (D : string -> list N -> Prop) : Words.ok_groups D ∅.
Proof. intros name text H. rewrite lookup_empty in H. discriminate. Qed.

(** What a successful search of the version pattern leaves in the groups,
    and where the word it matched lies in the subject. *)
Lemma search_from_sound (s : list N) (p : nat) (m : Re.Match) :
  Re.search_from version._regex p s = Some m ->
  Words.ok_groups Words.version_groups (Re.groupdict m)
  /\ is_Some (Re.groupdict m !! "release")
  /\ exists skipped w rest : list N,
       s = skipped ++ w ++ rest /\ Words.Lang version._regex w.
Proof.
  revert p. induction s as [|c s IH]; intros p; cbn [Re.search_from];
    match goal with
    | |- match Re.rmatch ?r ?st ?k with _ => _ end = _ -> _ =>
        destruct (Re.rmatch r st k) as [m'|] eqn:Hm
    end; try discriminate.
  - intros [= ->].
    apply (rmatch_sound Words.version_groups _ regex_respects_groups) in Hm
      as (st' & w & Hk & HL & Hrest & _ & Hgroups & Hsets);
      [|apply ok_groups_empty].
    injection Hk as <-. cbn [Re.groupdict Re.rest] in *.
    split; [exact Hgroups|]. split.
    + apply Hsets. right. exact regex_sets_release.
    + exists [], w, (Re.rest st'). split; [exact Hrest | exact HL].
  - intros [= ->].
    apply (rmatch_sound Words.version_groups _ regex_respects_groups) in Hm
      as (st' & w & Hk & HL & Hrest & _ & Hgroups & Hsets);
      [|apply ok_groups_empty].
    injection Hk as <-. cbn [Re.groupdict Re.rest] in *.
    split; [exact Hgroups|]. split.
    + apply Hsets. right. exact regex_sets_release.
    + exists [], w, (Re.rest st'). split; [exact Hrest | exact HL].
  - intros Hsearch. destruct (IH _ Hsearch) as (Hgroups & Hrelease & sk & w & rest & -> & HL).
    split; [exact Hgroups|]. split; [exact Hrelease|].
    exists (c :: sk), w, rest. split; [reflexivity | exact HL].
Qed.

(** ** [version.parse] raises nothing but [InvalidVersion] *)









(** Every word of the version pattern has an ASCII digit: the first
    character of its release. *)
Lemma lang_regex_has_digit (w : list N) :
  Words.Lang version._regex w ->
  exists c : N, c ∈ w /\ version.is_ascii_digit c = true.
Proof.
  unfold version._regex, version.VERSION_PATTERN.
  cbn [Re.seq foldr]. intros HL.
  apply lang_seq_inv in HL as (w0 & w1 & -> & _ & HL).   (* ^ *)
  apply lang_seq_inv in HL as (w2 & w3 & -> & _ & HL).   (* \s* *)
  apply lang_seq_inv in HL as (w4 & w5 & -> & HL & _).   (* the pattern *)
  apply lang_seq_inv in HL as (w6 & w7 & -> & _ & HL).   (* v? *)
  apply lang_seq_inv in HL as (w8 & w9 & -> & _ & HL).   (* epoch *)
  apply lang_seq_inv in HL as (w10 & w11 & -> & HL & _). (* release *)
  apply lang_group_inv in HL.
  apply lang_seq_inv in HL as (d & w12 & -> & HL & _).
  destruct (lang_plus_class _ _ HL) as (c & d' & -> & Hc & _).
  exists c. split; [|now apply range_digit].
  rewrite !elem_of_app, elem_of_cons. tauto.
Qed.

(** X12. When the installed pandas reports a version string without any
    ASCII digit (an empty string, "unknown"), the import raises
    [InvalidVersion] with that string. *)
Theorem import_fails_without_digit
    (s : str) (g : gmap string Compat.object) :
  (forall c : N, c ∈ s -> version.is_ascii_digit c = false) ->
  Compat.outcome (Compat.exec_module s g) = Raise (InvalidVersion s).
Proof.
  intros Hnone.
  destruct (Re.search version._regex s) as [m|] eqn:Hsearch.
  - destruct (search_from_sound s 0 m Hsearch)
      as (_ & _ & skipped & w & rest & -> & HL).
    destruct (lang_regex_has_digit w HL) as (c & Hin & Hdigit).
    rewrite Hnone in Hdigit; [discriminate|].
    rewrite !elem_of_app. tauto.
  - assert (Hparse : version.parse s = Raise (InvalidVersion s)).
    { unfold version.parse, version.Version__init__. now rewrite Hsearch. }
    now rewrite (exec_raises s _ g Hparse).
Qed.

Lemma import_fails_without_digit_witness :
  (forall c : N, c ∈ u "unknown" -> version.is_ascii_digit c = false)
  /\ Compat.outcome (Compat.exec_module (u "unknown") ∅)
     = Raise (InvalidVersion (u "unknown")).
Proof.
  assert (Hnone : forall c : N, c ∈ u "unknown" ->
                    version.is_ascii_digit c = false).
  { intros c Hin. cbn [u] in Hin.
    repeat (apply elem_of_cons in Hin as [->|Hin]; [reflexivity|]).
    now apply elem_of_nil in Hin. }
  split; [exact Hnone|].
  exact (import_fails_without_digit (u "unknown") ∅ Hnone).
Defined.
